(** * Token-bucket rate limiting of my_menu_api

    A shallow embedding of [src/my_menu_api/rate_limiting.py]: the
    configuration, the limiter [TokenBucketRateLimiter.is_allowed] with its
    two windows, and the middleware [RateLimitMiddleware.dispatch].

    Modelling choices.
    - Python [int] is [Z]; Python [float] (time stamps, token counts) is an
      exact rational [Q], so rounding of IEEE doubles is not modelled, nor
      the [OverflowError] of an int that is too large for a double: the
      theorems whose conclusion depends on either keep to bounds that
      rounding preserves and to integers of at most [2^53].  In
      every concrete evaluation below no time has elapsed since the last
      refill and the token counts are small integers or one half, so the
      results are the ones double arithmetic gives.
    - Entering and leaving the pipeline and [pipe.multi()] make no round
      trip; [pipe.setex] and [pipe.execute()] together are one.
    - [time.time()] is a parameter of the call.
    - The Redis server is a [World]: the stored buckets, the log of round
      trips made so far and a schedule that says which of the next round
      trips raise.  Expiry of a key is not modelled: a key that has expired
      is a key that is absent.
    - A stored value is the JSON object that [json.loads] returns, a record
      whose three fields may each be missing ([dict.get] with a default).
    - Exceptions are values of [Exn]; [try ... except Exception] is a match. *)

From Stdlib Require Import ZArith QArith Qround Qfield Lia Lqa Ascii.
From stdpp Require Import gmap strings pretty.

Local Open Scope Z_scope.

(** ** Python built-ins used by the module *)

Inductive Exn :=
  | RedisError
  | UnboundLocalError
  | ZeroDivisionError
  | HandlerError.

Module Py.

(** [int(x)] on a float: truncation toward zero. *)
Definition int (x : Q) : Z := Z.quot (Qnum x) (Zpos (Qden x)).

(** [a < b] on floats. *)
Definition lt (a b : Q) : bool := negb (Qle_bool b a).

(** [a >= b] on floats. *)
Definition ge (a b : Q) : bool := Qle_bool b a.

(** [min(a, b)]: the first argument unless the second is strictly smaller. *)
Definition min (a b : Q) : Q := if lt b a then b else a.

(** [a / b] on two ints: true division, [ZeroDivisionError] when [b] is 0. *)
Definition truediv (a b : Z) : Exn + Q :=
  if b =? 0 then inl ZeroDivisionError else inr (inject_Z a / inject_Z b)%Q.

(** [str(n)] on an int. *)
Definition str (n : Z) : string := pretty n.

(** [s.startswith(p)]. *)
Definition startswith (s p : string) : bool := String.prefix p s.

(** [x or y] on an optional int: [None] and [0] are falsy. *)
Definition or_int (x : option Z) (y : Z) : Z :=
  match x with
  | Some v => if v =? 0 then y else v
  | None => y
  end.

(** Truthiness of an optional string: [None] and the empty string are falsy. *)
Definition truthy (x : option string) : option string :=
  match x with
  | Some EmptyString => None
  | other => other
  end.

(** Characters removed by [str.strip()] among the code points below 256. *)
Definition isspace (c : Ascii.ascii) : bool :=
  let n := Z.of_nat (Ascii.nat_of_ascii c) in
  ((9 <=? n) && (n <=? 13)) || ((28 <=? n) && (n <=? 32))
  || (n =? 133) || (n =? 160).

Fixpoint lstrip (s : string) : string :=
  match s with
  | String c r => if isspace c then lstrip r else s
  | EmptyString => EmptyString
  end.

Fixpoint rstrip (s : string) : string :=
  match s with
  | String c r =>
      match rstrip r with
      | EmptyString => if isspace c then EmptyString else String c EmptyString
      | r' => String c r'
      end
  | EmptyString => EmptyString
  end.

Definition strip (s : string) : string := rstrip (lstrip s).

(** [s.split(",")[0]]: the text before the first comma. *)
Fixpoint split_comma_0 (s : string) : string :=
  match s with
  | String c r =>
      if Ascii.eqb c ","%char then EmptyString else String c (split_comma_0 r)
  | EmptyString => EmptyString
  end.

End Py.

(** ** Data model *)

Record RateLimitConfig := {
  requests_per_minute : Z;
  requests_per_hour : Z;
  burst_size : Z;
  redis_url : string
}.

(** Defaults of [RateLimitConfig.__init__]. *)
Definition default_config : RateLimitConfig :=
  {| requests_per_minute := 60; requests_per_hour := 1000;
     burst_size := 10; redis_url := "redis://localhost:6379" |}.

(** The JSON object kept under a bucket key. *)
Record Bucket := {
  tokens : option Q;
  last_refill : option Q;
  requests_made : option Z
}.

Inductive RedisHandle := FromUrl (url : string).

Record TokenBucketRateLimiter := {
  config : RateLimitConfig;
  redis_client : option RedisHandle
}.

(** ** The store and the effects of a call *)

Inductive StoreOp :=
  | OpGet (key : string)
  | OpSetex (key : string) (ttl : Z) (value : Bucket).

Definition op_key (o : StoreOp) : string :=
  match o with
  | OpGet k => k
  | OpSetex k _ _ => k
  end.

Record Event := { ev_op : StoreOp; ev_raised : bool }.

Record World := {
  w_data : gmap string (Z * Bucket);
  w_faults : list bool;
  w_trace : list Event
}.

Definition M (A : Type) : Type := World -> (Exn + A) * World.

Definition ret {A} (a : A) : M A := fun w => (inr a, w).

Definition raise {A} (e : Exn) : M A := fun w => (inl e, w).

Definition bind {A B} (c : M A) (k : A -> M B) : M B :=
  fun w =>
    match c w with
    | (inr a, w') => k a w'
    | (inl e, w') => (inl e, w')
    end.

Definition lift {A} (r : Exn + A) : M A := fun w => (r, w).

Notation "'do' x <- c ; k" := (bind c (fun x => k))
  (at level 10, x name, c at level 100, k at level 200).

(** Whether the next round trip raises. *)
Definition next_fault (w : World) : bool :=
  match w_faults w with
  | f :: _ => f
  | [] => false
  end.

(** The world once a round trip for [op] has been attempted. *)
Definition after_trip (w : World) (op : StoreOp) : World :=
  {| w_data := w_data w;
     w_faults := tail (w_faults w);
     w_trace := w_trace w ++ [{| ev_op := op; ev_raised := next_fault w |}] |}.

(** One network round trip: it is logged, and it raises when the schedule
    says so. *)
Definition round_trip (op : StoreOp) : M unit :=
  fun w =>
    if next_fault w then (inl RedisError, after_trip w op)
    else (inr tt, after_trip w op).

(** The bucket kept under [key], if any. *)
Definition stored (w : World) (key : string) : option Bucket :=
  snd <$> w_data w !! key.

(** [await self.redis_client.get(key)]. *)
Definition redis_get (key : string) : M (option Bucket) :=
  do _ <- round_trip (OpGet key);
  fun w => (inr (stored w key), w).

(** [pipe.setex(key, ttl, value)] followed by [await pipe.execute()]. *)
Definition redis_setex (key : string) (ttl : Z) (value : Bucket) : M unit :=
  do _ <- round_trip (OpSetex key ttl value);
  fun w =>
    (inr tt, {| w_data := <[key := (ttl, value)]> (w_data w);
                w_faults := w_faults w;
                w_trace := w_trace w |}).

(** The round trips made between two worlds of one run. *)
Definition events_of (w w' : World) : list Event :=
  drop (length (w_trace w)) (w_trace w').

(** ** TokenBucketRateLimiter.is_allowed *)

Definition Info := gmap string Z.

(** The list [limits] built at the top of [is_allowed]. *)
Definition limits (self : TokenBucketRateLimiter) (custom_limit : option Z)
  : list (string * Z * Z) :=
  [ ("minute", 60, Py.or_int custom_limit (requests_per_minute (config self)));
    ("hour", 3600, requests_per_hour (config self)) ].

(** [f"rate_limit:{identifier}:{endpoint}:{window_name}"]. *)
Definition bucket_key (identifier endpoint window_name : string) : string :=
  "rate_limit:" +:+ identifier +:+ ":" +:+ endpoint +:+ ":" +:+ window_name.

(** Lines 101-107: the locals [last_refill] and [tokens], read from the
    stored bucket or synthesized for a full one. *)
Definition last_refill_of (bucket_data : option Bucket) (current_time : Q) : Q :=
  match bucket_data with
  | Some bucket => default current_time (last_refill bucket)
  | None => current_time
  end.

Definition tokens_of (bucket_data : option Bucket) (max_requests : Z) : Q :=
  match bucket_data with
  | Some bucket => default (inject_Z max_requests) (tokens bucket)
  | None => inject_Z max_requests
  end.

(** Lines 110-112: the token count after the refill, before the check.
    [rate] is [max_requests / window_seconds]. *)
Definition refill (bucket_data : option Bucket) (current_time : Q)
    (max_requests : Z) (rate : Q) : Q :=
  let time_elapsed := (current_time - last_refill_of bucket_data current_time)%Q in
  let tokens_to_add := (time_elapsed * rate)%Q in
  Py.min (inject_Z max_requests)
    (tokens_of bucket_data max_requests + tokens_to_add)%Q.

(** What one iteration of the loop over [limits] does next. *)
Inductive Step :=
  | Next (bucket : option Bucket) (rate_limit_info : Info)
  | Return (result : bool * Info).

(** Lines 133-135: the three entries a window adds to [rate_limit_info]. *)
Definition window_info (window_name : string) (window_seconds max_requests : Z)
    (current_time new_tokens : Q) (rate_limit_info : Info) : Info :=
  <[window_name +:+ "_reset" := Py.int (current_time + inject_Z window_seconds)]>
    (<[window_name +:+ "_limit" := max_requests]>
       (<[window_name +:+ "_remaining" := Py.int new_tokens]> rate_limit_info)).

(** Lines 122-126: the dictionary [bucket_state]; [bucket] is the dictionary
    whose [requests_made] is read. *)
Definition bucket_state_of (bucket : Bucket) (new_tokens current_time : Q)
    (allowed : bool) : Bucket :=
  {| tokens := Some new_tokens;
     last_refill := Some current_time;
     requests_made :=
       Some (default 0 (requests_made bucket) + (if allowed then 1 else 0)) |}.

(** The body of the [for] loop, lines 91-139.  [bucket] is the Python local
    of that name: [None] while it is unbound, and it keeps its value from one
    iteration to the next. *)
Definition window_body (identifier endpoint : string) (current_time : Q)
    (bucket : option Bucket) (rate_limit_info : Info)
    (lim : string * Z * Z) : M Step :=
  let '(window_name, window_seconds, max_requests) := lim in
  let key := bucket_key identifier endpoint window_name in
  do bucket_data <- redis_get key;
  let bucket := match bucket_data with Some b => Some b | None => bucket end in
  do rate <- lift (Py.truediv max_requests window_seconds);
  let new_tokens := refill bucket_data current_time max_requests rate in
  let allowed := Py.ge new_tokens 1 in
  let new_tokens := if allowed then (new_tokens - 1)%Q else new_tokens in
  do b <- match bucket with
          | Some b => ret b
          | None => raise UnboundLocalError
          end;
  let bucket_state := bucket_state_of b new_tokens current_time allowed in
  do _ <- redis_setex key (window_seconds * 2) bucket_state;
  let rate_limit_info :=
    window_info window_name window_seconds max_requests current_time
      new_tokens rate_limit_info in
  if allowed then ret (Next bucket rate_limit_info)
  else
    do per_token <- lift (Py.truediv window_seconds max_requests);
    ret (Return (false,
           <["retry_after" := Py.int ((1 - new_tokens) * per_token)]>
             rate_limit_info)).

(** The [for] loop with its [try ... except Exception: return True, {}]. *)
Fixpoint for_limits (identifier endpoint : string) (current_time : Q)
    (bucket : option Bucket) (rate_limit_info : Info)
    (ls : list (string * Z * Z)) (w : World) : (bool * Info) * World :=
  match ls with
  | [] => ((true, rate_limit_info), w)
  | lim :: rest =>
      match window_body identifier endpoint current_time bucket rate_limit_info lim w with
      | (inl _, w') => ((true, ∅), w')
      | (inr (Return result), w') => (result, w')
      | (inr (Next bucket' info'), w') =>
          for_limits identifier endpoint current_time bucket' info' rest w'
      end
  end.

Definition is_allowed (self : TokenBucketRateLimiter)
    (identifier endpoint : string) (custom_limit : option Z)
    (current_time : Q) (w : World) : (bool * Info) * World :=
  match redis_client self with
  | None => ((true, ∅), w)
  | Some _ =>
      for_limits identifier endpoint current_time None ∅
        (limits self custom_limit) w
  end.

(** ** RateLimitMiddleware *)

Record Request := {
  url_path : string;
  x_forwarded_for : option string;
  x_real_ip : option string;
  (** [request.client.host], [None] when [request.client] is [None]. *)
  client_host : option string;
  (** [str(request.state.user.id)] when a truthy user is attached. *)
  state_user_id : option string
}.

Inductive Content :=
  | Downstream (body : string)
  | Json (error message : string) (retry_after : Z).

Record Response := {
  status_code : Z;
  content : Content;
  headers : gmap string string
}.

Record RateLimitMiddleware := {
  rate_limiter : TokenBucketRateLimiter;
  mw_config : RateLimitConfig;
  endpoint_limits : gmap string Z;
  excluded_paths : list string
}.

(** [RateLimitMiddleware.__init__]: the limiter starts without a client. *)
Definition new_middleware (cfg : RateLimitConfig) : RateLimitMiddleware :=
  {| rate_limiter := {| config := cfg; redis_client := None |};
     mw_config := cfg;
     endpoint_limits :=
       <["/auth/login" := 5]> (<["/auth/register" := 3]>
         (<["/images/upload" := 10]> ∅));
     excluded_paths :=
       ["/docs"; "/redoc"; "/openapi.json";
        "/healthz"; "/readiness"; "/liveness"; "/metrics"] |}.

Definition create_rate_limit_middleware (requests_per_minute requests_per_hour
    burst_size : Z) (redis_url : string) : RateLimitMiddleware :=
  new_middleware
    {| requests_per_minute := requests_per_minute;
       requests_per_hour := requests_per_hour;
       burst_size := burst_size;
       redis_url := redis_url |}.

(** [TokenBucketRateLimiter.init], when the ping succeeds. *)
Definition init (self : TokenBucketRateLimiter) : TokenBucketRateLimiter :=
  {| config := config self;
     redis_client := Some (FromUrl (redis_url (config self))) |}.

Definition get_client_ip (request : Request) : string :=
  match Py.truthy (x_forwarded_for request) with
  | Some forwarded_for => Py.strip (Py.split_comma_0 forwarded_for)
  | None =>
      match Py.truthy (x_real_ip request) with
      | Some real_ip => real_ip
      | None => default "unknown" (client_host request)
      end
  end.

Definition get_user_id (request : Request) : option string :=
  state_user_id request.

(** Line 182: [identifier = user_id if user_id else client_ip]. *)
Definition identifier_of (request : Request) : string :=
  default (get_client_ip request) (Py.truthy (get_user_id request)).

(** The three [X-RateLimit-*] headers, as lines 205-207 and 216-218 compute
    them.  [header_time] is the [time.time()] read for the default reset. *)
Definition limit_headers (self : RateLimitMiddleware) (rate_info : Info)
    (header_time : Q) (h : gmap string string) : gmap string string :=
  <["X-RateLimit-Reset" :=
      Py.str (default (Py.int header_time + 60) (rate_info !! "minute_reset"))]>
    (<["X-RateLimit-Remaining" :=
         Py.str (default 0 (rate_info !! "minute_remaining"))]>
       (<["X-RateLimit-Limit" :=
            Py.str (default (requests_per_minute (mw_config self))
                      (rate_info !! "minute_limit"))]> h)).

Definition HTTP_429_TOO_MANY_REQUESTS : Z := 429.

(** [RateLimitMiddleware.dispatch].  [call_next] is the downstream handler;
    an exception it raises inside the [try] is caught by the [except] at the
    end, which calls it once more. *)
Definition dispatch (self : RateLimitMiddleware) (request : Request)
    (call_next : Request -> Exn + Response)
    (current_time header_time : Q) (w : World) : (Exn + Response) * World :=
  if existsb (Py.startswith (url_path request)) (excluded_paths self)
  then (call_next request, w)
  else
    let identifier := identifier_of request in
    let endpoint := url_path request in
    let custom_limit := endpoint_limits self !! endpoint in
    let '((allowed, rate_info), w') :=
      is_allowed (rate_limiter self) identifier endpoint custom_limit
        current_time w in
    if negb allowed then
      let retry := default 60 (rate_info !! "retry_after") in
      (inr {| status_code := HTTP_429_TOO_MANY_REQUESTS;
              content := Json "Rate limit exceeded"
                           "Too many requests. Please try again later." retry;
              headers :=
                limit_headers self rate_info header_time
                  (<["Retry-After" := Py.str retry]> ∅) |}, w')
    else
      match call_next request with
      | inr response =>
          (inr (if bool_decide (rate_info = ∅) then response
                else {| status_code := status_code response;
                        content := content response;
                        headers := limit_headers self rate_info header_time
                                     (headers response) |}), w')
      | inl _ => (call_next request, w')
      end.

(** ** Vocabulary of the statements *)

(** No round trip of [evs] raised. *)
Definition calm (evs : list Event) : Prop :=
  Forall (fun e => ev_raised e = false) evs.

(** Either no round trip of [evs] raised, or exactly the last one did, and
    then [P] holds. *)
Definition raises_last (evs : list Event) (P : Prop) : Prop :=
  calm evs \/
  exists good e, evs = good ++ [e] /\ calm good /\ ev_raised e = true /\ P.

Definition window_name_of (lim : string * Z * Z) : string := lim.1.1.

(** The three headers the middleware adds. *)
Definition rate_limit_headers : list string :=
  ["X-RateLimit-Limit"; "X-RateLimit-Remaining"; "X-RateLimit-Reset"].

(** The key as the specification words it, and the wait before a retry as
    the specification words it: the exact product, not truncated. *)
Definition spec_key (identifier endpoint window_name : string) : string :=
  "ratelimit:" +:+ identifier +:+ ":" +:+ endpoint +:+ ":" +:+ window_name.

Definition spec_retry_after (new_tokens : Q) (window_seconds max_requests : Z)
  : Q :=
  ((1 - new_tokens) * (inject_Z window_seconds / inject_Z max_requests))%Q.

(** [n] calls of [is_allowed] one after the other at the same instant. *)
Fixpoint calls (n : nat) (self : TokenBucketRateLimiter)
    (identifier endpoint : string) (custom_limit : option Z)
    (current_time : Q) (w : World) : list (bool * Info) * World :=
  match n with
  | O => ([], w)
  | S n' =>
      let '(result, w1) :=
        is_allowed self identifier endpoint custom_limit current_time w in
      let '(results, w') :=
        calls n' self identifier endpoint custom_limit current_time w1 in
      (result :: results, w')
  end.

(** ** Concrete inputs *)

Definition config5 : RateLimitConfig :=
  {| requests_per_minute := 5; requests_per_hour := 1000;
     burst_size := 10; redis_url := "redis://localhost:6379" |}.

(** A limiter with five requests a minute, once [init] has connected it. *)
Definition limiter5 : TokenBucketRateLimiter :=
  init {| config := config5; redis_client := None |}.

(** A limiter with the default limits, connected. *)
Definition limiter60 : TokenBucketRateLimiter :=
  init {| config := default_config; redis_client := None |}.

Definition mk_bucket (t lr : Q) (n : Z) : Bucket :=
  {| tokens := Some t; last_refill := Some lr; requests_made := Some n |}.

Definition mk_world (minute hour : option Bucket) (faults : list bool) : World :=
  let put key ttl (b : option Bucket) (m : gmap string (Z * Bucket)) :=
    match b with Some v => <[key := (ttl, v)]> m | None => m end in
  {| w_data :=
       put (bucket_key "1.2.3.4" "/test" "minute") 120 minute
         (put (bucket_key "1.2.3.4" "/test" "hour") 7200 hour ∅);
     w_faults := faults;
     w_trace := [] |}.

(** A store that has never been written. *)
Definition empty_world : World := mk_world None None [].

(** Both buckets full at time 1000, for [limiter5]. *)
Definition full_world (faults : list bool) : World :=
  mk_world (Some (mk_bucket 5 1000 0)) (Some (mk_bucket 1000 1000 0)) faults.

(** The minute bucket of [limiter60] holding half a token at time 1000. *)
Definition half_world : World :=
  mk_world (Some (mk_bucket (1 # 2) 1000 60)) (Some (mk_bucket 940 1000 60)) [].

Definition sample_request : Request :=
  {| url_path := "/menu-items";
     x_forwarded_for := Some "1.2.3.4, 10.0.0.1";
     x_real_ip := None;
     client_host := Some "10.0.0.1";
     state_user_id := None |}.

Definition sample_response : Response :=
  {| status_code := 200; content := Downstream "[]"; headers := ∅ |}.

(** ** Vocabulary and inputs of the further properties *)

(** [s] holds a comma. *)
Fixpoint has_comma (s : string) : bool :=
  match s with
  | String c r => Ascii.eqb c ","%char || has_comma r
  | EmptyString => false
  end.

(** [s] holds white space only. *)
Fixpoint all_space (s : string) : bool :=
  match s with
  | String c r => Py.isspace c && all_space r
  | EmptyString => true
  end.

(** A bucket whose numbers the float arithmetic of the limiter handles
    without error: the token count and the time of the last refill are
    present and not negative, the count is at most [2^53] and the time is not
    later than [current_time]. *)
Definition in_range (b : Bucket) (current_time : Q) : Prop :=
  exists t lr,
    tokens b = Some t /\ last_refill b = Some lr /\
    (0 <= t <= inject_Z (2 ^ 53))%Q /\ (0 <= lr <= current_time)%Q.

(** Full buckets of [limiter5] at time 1000 for two clients. *)
Definition two_clients_world : World :=
  {| w_data :=
       <[bucket_key "1.2.3.4" "/test" "minute" := (120, mk_bucket 5 1000 0)]>
         (<[bucket_key "1.2.3.4" "/test" "hour" := (7200, mk_bucket 1000 1000 0)]>
            (<[bucket_key "5.6.7.8" "/test" "minute" := (120, mk_bucket 5 1000 0)]>
               (<[bucket_key "5.6.7.8" "/test" "hour" :=
                    (7200, mk_bucket 1000 1000 0)]> ∅)));
     w_faults := [];
     w_trace := [] |}.

(** A middleware as the constructor builds it, its limiter connected. *)
Definition connected_middleware (cfg : RateLimitConfig) : RateLimitMiddleware :=
  {| rate_limiter := init (rate_limiter (new_middleware cfg));
     mw_config := mw_config (new_middleware cfg);
     endpoint_limits := endpoint_limits (new_middleware cfg);
     excluded_paths := excluded_paths (new_middleware cfg) |}.

(** A connected limiter whose minute limit is zero. *)
Definition limiter0 : TokenBucketRateLimiter :=
  init {| config :=
            {| requests_per_minute := 0; requests_per_hour := 1000;
               burst_size := 10; redis_url := "redis://localhost:6379" |};
          redis_client := None |}.

(** The minute bucket of [limiter5] full, its hour bucket down to half a
    token. *)
Definition hour_spent_world : World :=
  mk_world (Some (mk_bucket 5 1000 0)) (Some (mk_bucket (1 # 2) 1000 0)) [].

(** Only the minute bucket stored, seven requests counted on it. *)
Definition minute_only_world : World :=
  mk_world (Some (mk_bucket 5 1000 7)) None [].

Definition test_request : Request :=
  {| url_path := "/test"; x_forwarded_for := Some "1.2.3.4";
     x_real_ip := None; client_host := None; state_user_id := None |}.

Definition docs_request : Request :=
  {| url_path := "/docs/oauth2-redirect"; x_forwarded_for := Some "1.2.3.4";
     x_real_ip := None; client_host := None; state_user_id := None |}.

(** * Properties *)

(** ** Round trips of a run *)

Lemma events_of_app w w' evs :
  w_trace w' = w_trace w ++ evs -> events_of w w' = evs.
Proof. intros H. unfold events_of. rewrite H. apply drop_app_length. Qed.

Lemma calm_not_raised evs e :
  calm evs -> e ∈ evs -> ev_raised e = true -> False.
Proof.
  intros Hc He Hr. unfold calm in Hc. rewrite Forall_forall in Hc.
  specialize (Hc e He). congruence.
Qed.

Lemma raises_last_elim evs P e :
  raises_last evs P -> e ∈ evs -> ev_raised e = true ->
  P /\ exists good e', evs = good ++ [e'] /\ calm good /\ ev_raised e' = true.
Proof.
  intros [Hc | (good & e' & -> & Hc & Hr & HP)] He Hr'.
  - destruct (calm_not_raised _ _ Hc He Hr').
  - split; [exact HP | eauto].
Qed.

Lemma raises_last_app evs1 evs2 P :
  calm evs1 -> raises_last evs2 P -> raises_last (evs1 ++ evs2) P.
Proof.
  intros H1 [H2 | (good & e & -> & Hc & Hr & HP)].
  - left. apply Forall_app; done.
  - right. exists (evs1 ++ good), e. rewrite app_assoc.
    split_and!; try done. apply Forall_app; done.
Qed.

Lemma stored_after_trip w op key : stored (after_trip w op) key = stored w key.
Proof. reflexivity. Qed.

(** Case analysis on a run of [window_body]: one goal per path through the
    body, with the run [H] rewritten to its outcome on that path.  The goal
    is set aside meanwhile, so that only the run is analysed. *)
Ltac window_cases H :=
  let g := fresh "goal" in
  match goal with |- ?G => set (g := G) end;
  unfold window_body, redis_get, redis_setex, round_trip, bind, lift, ret,
    raise, Py.truediv in H;
  repeat (cbv beta iota in *; rewrite ?stored_after_trip in *;
          case_match; simplify_eq);
  subst g; cbv zeta;
  rewrite ?stored_after_trip in *;
  try match goal with
      | Hs : stored _ _ = _ |- context [stored _ _] => rewrite Hs
      end.

Section window.
Context (identifier endpoint : string) (current_time : Q).
Context (bucket : option Bucket) (rate_limit_info : Info).
Context (window_name : string) (window_seconds max_requests : Z).
Context (w w' : World) (r : Exn + Step).
Hypothesis Hrun :
  window_body identifier endpoint current_time bucket rate_limit_info
    (window_name, window_seconds, max_requests) w = (r, w').

Lemma window_body_trace :
  exists evs,
    w_trace w' = w_trace w ++ evs /\
    Forall (fun e => op_key (ev_op e) =
                      bucket_key identifier endpoint window_name) evs /\
    raises_last evs (r = inl RedisError) /\
    (forall s, r = inr s -> calm evs).
Proof.
  pose proof Hrun as H. window_cases H; simpl.
  all: try (eexists [_]; split; [reflexivity|]).
  all: try (eexists [_; _]; split; [rewrite <- app_assoc; reflexivity|]).
  all: split; [repeat constructor|].
  all: split; [|try discriminate].
  all: unfold raises_last, calm.
  all: try (left; repeat constructor; simpl; done).
  all: try (intros; repeat constructor; simpl; done).
  all: right; first [eexists [], _; split; [reflexivity|]
                    | eexists [_], _; split; [reflexivity|]].
  all: split_and!; [repeat constructor; simpl; done | simpl; done | done].
Qed.

Lemma window_body_frame k :
  k <> bucket_key identifier endpoint window_name ->
  w_data w' !! k = w_data w !! k.
Proof.
  intros Hk. pose proof Hrun as H.
  window_cases H; simpl; try done.
  all: by rewrite lookup_insert_ne.
Qed.

End window.

Section loop.
Context (identifier endpoint : string) (current_time : Q).

Lemma for_limits_cons bucket info lim rest w :
  for_limits identifier endpoint current_time bucket info (lim :: rest) w =
  match window_body identifier endpoint current_time bucket info lim w with
  | (inl _, w') => ((true, ∅), w')
  | (inr (Return result), w') => (result, w')
  | (inr (Next bucket' info'), w') =>
      for_limits identifier endpoint current_time bucket' info' rest w'
  end.
Proof. reflexivity. Qed.

Lemma for_limits_trace ls : forall bucket info w res w',
  for_limits identifier endpoint current_time bucket info ls w = (res, w') ->
  exists evs,
    w_trace w' = w_trace w ++ evs /\
    Forall (fun e => exists lim, lim ∈ ls /\
              op_key (ev_op e) =
              bucket_key identifier endpoint (window_name_of lim)) evs /\
    raises_last evs (res = (true, ∅)).
Proof.
  induction ls as [|[[wn ws] mx] rest IH]; intros bucket info w res w' H.
  - simpl in H. simplify_eq. exists []. rewrite app_nil_r.
    split_and!; [done | constructor | left; constructor].
  - rewrite for_limits_cons in H.
    destruct (window_body identifier endpoint current_time bucket info
                (wn, ws, mx) w) as [r w1] eqn:Hw.
    destruct (window_body_trace _ _ _ _ _ _ _ _ _ _ _ Hw)
      as (evs1 & Ht1 & Hk1 & Hr1 & Hc1).
    assert (Hk1' : Forall (fun e => exists lim, lim ∈ (wn, ws, mx) :: rest /\
              op_key (ev_op e) =
              bucket_key identifier endpoint (window_name_of lim)) evs1).
    { eapply Forall_impl; [exact Hk1|]. intros e He.
      exists (wn, ws, mx). split; [left | exact He]. }
    destruct r as [x | [b i | result]].
    + simplify_eq. exists evs1. split_and!; [done..|].
      destruct Hr1 as [Hc | (good & e & -> & Hc & Hr & _)]; [by left|].
      right. by exists good, e.
    + destruct (IH _ _ _ _ _ H) as (evs2 & Ht2 & Hk2 & Hr2).
      exists (evs1 ++ evs2). split_and!.
      * by rewrite Ht2, Ht1, app_assoc.
      * apply Forall_app. split; [done|].
        eapply Forall_impl; [exact Hk2|]. intros e (lim & Hin & He).
        exists lim. split; [by right | done].
      * apply raises_last_app; [by eapply Hc1 | done].
    + simplify_eq. exists evs1. split_and!; [done..|].
      left. by eapply Hc1.
Qed.

Lemma for_limits_frame ls k : forall bucket info w res w',
  for_limits identifier endpoint current_time bucket info ls w = (res, w') ->
  (forall lim, lim ∈ ls ->
     k <> bucket_key identifier endpoint (window_name_of lim)) ->
  w_data w' !! k = w_data w !! k.
Proof.
  induction ls as [|[[wn ws] mx] rest IH]; intros bucket info w res w' H Hk.
  - simpl in H. by simplify_eq.
  - rewrite for_limits_cons in H.
    destruct (window_body identifier endpoint current_time bucket info
                (wn, ws, mx) w) as [r w1] eqn:Hw.
    assert (Hf : w_data w1 !! k = w_data w !! k).
    { eapply window_body_frame; [exact Hw|].
      apply (Hk (wn, ws, mx)). left. }
    destruct r as [x | [b i | result]]; simplify_eq; try done.
    rewrite <- Hf. eapply IH; [exact H|].
    intros lim Hin. apply Hk. by right.
Qed.

End loop.

(** ** Keys *)

Lemma bucket_key_inj identifier endpoint a b :
  bucket_key identifier endpoint a = bucket_key identifier endpoint b -> a = b.
Proof.
  unfold bucket_key. intros H.
  repeat apply String.app_inj in H. exact H.
Qed.

Lemma minute_hour_keys identifier endpoint :
  bucket_key identifier endpoint "minute" <> bucket_key identifier endpoint "hour".
Proof. intros H. apply bucket_key_inj in H. discriminate. Qed.

Lemma limits_elem self custom_limit lim :
  lim ∈ limits self custom_limit ->
  lim = ("minute", 60, Py.or_int custom_limit (requests_per_minute (config self)))
  \/ lim = ("hour", 3600, requests_per_hour (config self)).
Proof.
  unfold limits. rewrite !elem_of_cons, elem_of_nil. tauto.
Qed.

(** ** Arithmetic of the built-ins *)

Lemma ge_true a b : Py.ge a b = true <-> (b <= a)%Q.
Proof. unfold Py.ge. apply Qle_bool_iff. Qed.

Lemma ge_false a b : Py.ge a b = false <-> (a < b)%Q.
Proof.
  unfold Py.ge. split; intros H.
  - apply Qnot_le_lt. intros Hle. apply Qle_bool_iff in Hle. congruence.
  - destruct (Qle_bool b a) eqn:E; [|done].
    apply Qle_bool_iff in E. apply Qle_not_lt in E. done.
Qed.

Lemma min_le_l a b : (Py.min a b <= a)%Q.
Proof.
  unfold Py.min, Py.lt. destruct (Qle_bool a b) eqn:E; simpl.
  - apply Qle_refl.
  - apply Qlt_le_weak, ge_false. exact E.
Qed.

Lemma min_glb a b c : (c <= a)%Q -> (c <= b)%Q -> (c <= Py.min a b)%Q.
Proof. unfold Py.min. destruct (Py.lt b a); done. Qed.

Lemma int_floor x : (0 <= x)%Q -> Py.int x = Qfloor x.
Proof.
  destruct x as [n d]. unfold Qle, Py.int, Qfloor. simpl. intros H.
  apply Z.quot_div_nonneg; lia.
Qed.


Lemma rate_nonneg (a b : Z) : 0 <= a -> 0 < b -> (0 <= inject_Z a / inject_Z b)%Q.
Proof.
  intros Ha Hb. apply Qle_shift_div_l.
  - change 0%Q with (inject_Z 0). rewrite <- Zlt_Qlt. exact Hb.
  - rewrite Qmult_0_l. change 0%Q with (inject_Z 0). rewrite <- Zle_Qle. exact Ha.
Qed.


(** The refilled count stays within the capacity when the count read from
    the store does and the clock has not gone back. *)
Lemma refill_bounds bucket_data current_time max_requests window_seconds :
  0 < window_seconds ->
  (0 <= tokens_of bucket_data max_requests <= inject_Z max_requests)%Q ->
  (last_refill_of bucket_data current_time <= current_time)%Q ->
  (0 <= refill bucket_data current_time max_requests
          (inject_Z max_requests / inject_Z window_seconds)
     <= inject_Z max_requests)%Q.
Proof.
  intros Hws [Ht0 Ht1] Hlr. unfold refill. split; [|apply min_le_l].
  assert (Hmx : (0 <= inject_Z max_requests)%Q) by (eapply Qle_trans; eauto).
  apply min_glb; [done|].
  assert (Hrate : (0 <= inject_Z max_requests / inject_Z window_seconds)%Q).
  { apply rate_nonneg; [|done]. rewrite Zle_Qle. exact Hmx. }
  assert (He : (0 <= current_time - last_refill_of bucket_data current_time)%Q)
    by lra.
  pose proof (Qmult_le_0_compat _ _ He Hrate). lra.
Qed.

(** ** One iteration of the loop *)

Section window_results.
Context (identifier endpoint : string) (current_time : Q).
Context (bucket : option Bucket) (rate_limit_info : Info).
Context (window_name : string) (window_seconds max_requests : Z).
Context (w w' : World) (r : Exn + Step).
Hypothesis Hrun :
  window_body identifier endpoint current_time bucket rate_limit_info
    (window_name, window_seconds, max_requests) w = (r, w').

(** The iteration returns [False] only from line 139. *)
Lemma window_body_deny result :
  r = inr (Return result) ->
  let new_tokens :=
    refill (stored w (bucket_key identifier endpoint window_name))
      current_time max_requests
      (inject_Z max_requests / inject_Z window_seconds) in
  max_requests <> 0 /\ (new_tokens < 1)%Q /\
  result =
    (false,
     <["retry_after" :=
         Py.int ((1 - new_tokens) *
                 (inject_Z window_seconds / inject_Z max_requests))]>
       (window_info window_name window_seconds max_requests current_time
          new_tokens rate_limit_info)).
Proof.
  intros Hr. pose proof Hrun as H. window_cases H.
  all: match goal with
       | H : (_ =? 0) = false |- _ /\ _ => apply Z.eqb_neq in H
       end.
  all: split_and!; [lia | by apply ge_false | done].
Qed.

(** The iteration goes on to the next window only after it has consumed a
    token and written the bucket back. *)
Lemma window_body_next bucket' info' :
  r = inr (Next bucket' info') ->
  let key := bucket_key identifier endpoint window_name in
  let new_tokens :=
    refill (stored w key) current_time max_requests
      (inject_Z max_requests / inject_Z window_seconds) in
  (1 <= new_tokens)%Q /\
  bucket' = match stored w key with Some b => Some b | None => bucket end /\
  info' = window_info window_name window_seconds max_requests current_time
            (new_tokens - 1)%Q rate_limit_info /\
  exists b,
    bucket' = Some b /\
    w_data w' !! key =
      Some (window_seconds * 2,
            bucket_state_of b (new_tokens - 1)%Q current_time true).
Proof.
  intros Hr. pose proof Hrun as H. window_cases H.
  all: split_and!; [by apply ge_true | done | done |].
  all: eexists; split; [reflexivity|]; simpl; by rewrite lookup_insert_eq.
Qed.

(** What a [setex] of the iteration writes. *)
Lemma window_body_write e key ttl value :
  e ∈ events_of w w' -> ev_op e = OpSetex key ttl value ->
  let new_tokens :=
    refill (stored w key) current_time max_requests
      (inject_Z max_requests / inject_Z window_seconds) in
  let allowed := Py.ge new_tokens 1 in
  key = bucket_key identifier endpoint window_name /\
  ttl = window_seconds * 2 /\
  window_seconds <> 0 /\
  exists b,
    match stored w key with Some b' => Some b' | None => bucket end = Some b /\
    value = bucket_state_of b
              (if allowed then (new_tokens - 1)%Q else new_tokens)
              current_time allowed.
Proof.
  intros He Hop. pose proof Hrun as H. window_cases H.
  all: first
    [ rewrite (events_of_app _ _ [_]) in He by reflexivity
    | rewrite (events_of_app _ _ [_; _]) in He
        by (simpl; rewrite <- app_assoc; reflexivity) ].
  all: rewrite ?elem_of_cons, elem_of_nil in He.
  all: destruct_or!; try done; subst e; simpl in Hop; simplify_eq.
  all: repeat match goal with
       | H : (_ =? 0) = false |- _ => apply Z.eqb_neq in H
       end.
  all: match goal with Hs : stored _ _ = _ |- _ => rewrite Hs end.
  all: split_and!; [done | done | done |].
  all: eexists; split; [reflexivity|].
  all: match goal with H : Py.ge _ _ = _ |- _ => rewrite H end; done.
Qed.

(** With nothing stored under the key and [bucket] still unbound, line 125
    raises before anything is written. *)
Lemma window_body_unbound :
  stored w (bucket_key identifier endpoint window_name) = None ->
  bucket = None ->
  (exists x, r = inl x) /\
  w_data w' = w_data w /\
  events_of w w' =
    [{| ev_op := OpGet (bucket_key identifier endpoint window_name);
        ev_raised := next_fault w |}].
Proof.
  intros Hs Hb. pose proof Hrun as H. window_cases H.
  all: try congruence.
  all: split_and!; [by eexists | reflexivity | apply events_of_app; simpl].
  all: by match goal with Hf : next_fault w = _ |- _ => rewrite Hf end.
Qed.

End window_results.

(** ** The two windows of a call *)

Lemma is_allowed_inv self h identifier endpoint custom_limit current_time
    w res w' :
  redis_client self = Some h ->
  is_allowed self identifier endpoint custom_limit current_time w = (res, w') ->
  exists r1 w1,
    window_body identifier endpoint current_time None ∅
      ("minute", 60, Py.or_int custom_limit (requests_per_minute (config self)))
      w = (r1, w1) /\
    match r1 with
    | inl _ => res = (true, ∅) /\ w' = w1
    | inr (Return result) => res = result /\ w' = w1
    | inr (Next bucket info) =>
        exists r2,
          window_body identifier endpoint current_time bucket info
            ("hour", 3600, requests_per_hour (config self)) w1 = (r2, w') /\
          match r2 with
          | inl _ => res = (true, ∅)
          | inr (Return result) => res = result
          | inr (Next _ info') => res = (true, info')
          end
    end.
Proof.
  unfold is_allowed, limits. intros -> H.
  rewrite for_limits_cons in H.
  destruct (window_body identifier endpoint current_time None ∅ _ w)
    as [r1 w1] eqn:H1.
  exists r1, w1. split; [done|].
  destruct r1 as [x | [bucket info | result]]; simplify_eq; [done | | done].
  rewrite for_limits_cons in H.
  destruct (window_body identifier endpoint current_time bucket info _ w1)
    as [r2 w2] eqn:H2.
  destruct r2 as [x | [bucket2 info2 | result]]; simpl in H; simplify_eq;
    eexists; (split; [reflexivity | done]).
Qed.

(** The events of two consecutive runs. *)
Lemma events_of_trans w w1 w' evs1 evs2 :
  w_trace w1 = w_trace w ++ evs1 -> w_trace w' = w_trace w1 ++ evs2 ->
  events_of w w' = evs1 ++ evs2.
Proof.
  intros H1 H2. apply events_of_app. by rewrite H2, H1, app_assoc.
Qed.

Lemma stored_frame w w1 key :
  w_data w1 !! key = w_data w !! key -> stored w1 key = stored w key.
Proof. unfold stored. by intros ->. Qed.

(** The hour bucket as the hour iteration finds it is the one the call
    started with. *)
Lemma hour_bucket_unchanged identifier endpoint current_time bucket info
    max_requests w r1 w1 :
  window_body identifier endpoint current_time bucket info
    ("minute", 60, max_requests) w = (r1, w1) ->
  stored w1 (bucket_key identifier endpoint "hour") =
  stored w (bucket_key identifier endpoint "hour").
Proof.
  intros H. apply stored_frame. eapply window_body_frame; [exact H|].
  intros E. symmetry in E. by apply minute_hour_keys in E.
Qed.

(** What a [setex] of a call writes, whichever window made it. *)
Lemma is_allowed_write self identifier endpoint custom_limit current_time
    w res w' e key ttl value :
  is_allowed self identifier endpoint custom_limit current_time w = (res, w') ->
  e ∈ events_of w w' -> ev_op e = OpSetex key ttl value ->
  exists window_name window_seconds max_requests bucket,
    (window_name, window_seconds, max_requests) ∈ limits self custom_limit /\
    0 < window_seconds /\
    key = bucket_key identifier endpoint window_name /\
    ttl = window_seconds * 2 /\
    let new_tokens :=
      refill (stored w key) current_time max_requests
        (inject_Z max_requests / inject_Z window_seconds) in
    let allowed := Py.ge new_tokens 1 in
    exists b,
      match stored w key with Some b' => Some b' | None => bucket end = Some b /\
      value = bucket_state_of b
                (if allowed then (new_tokens - 1)%Q else new_tokens)
                current_time allowed.
Proof.
  intros H He Hop.
  destruct (redis_client self) as [h|] eqn:Hc.
  2: { unfold is_allowed in H. rewrite Hc in H. simplify_eq.
       unfold events_of in He. rewrite drop_all in He.
       by apply elem_of_nil in He. }
  destruct (is_allowed_inv _ _ _ _ _ _ _ _ _ Hc H) as (r1 & w1 & H1 & Hres).
  assert (Hmin : e ∈ events_of w w1 ->
    exists window_name window_seconds max_requests bucket,
    (window_name, window_seconds, max_requests) ∈ limits self custom_limit /\
    0 < window_seconds /\
    key = bucket_key identifier endpoint window_name /\
    ttl = window_seconds * 2 /\
    exists b,
      match stored w key with Some b' => Some b' | None => bucket end = Some b /\
      value = bucket_state_of b
                (if Py.ge (refill (stored w key) current_time max_requests
                             (inject_Z max_requests / inject_Z window_seconds)) 1
                 then (refill (stored w key) current_time max_requests
                         (inject_Z max_requests / inject_Z window_seconds) - 1)%Q
                 else refill (stored w key) current_time max_requests
                        (inject_Z max_requests / inject_Z window_seconds))
                current_time
                (Py.ge (refill (stored w key) current_time max_requests
                          (inject_Z max_requests / inject_Z window_seconds)) 1)).
  { intros He1.
    destruct (window_body_write _ _ _ _ _ _ _ _ _ _ _ H1 _ _ _ _ He1 Hop)
      as (Hk & Ht & _ & Hb).
    exists "minute", 60,
      (Py.or_int custom_limit (requests_per_minute (config self))), None.
    split_and!; [unfold limits; rewrite !elem_of_cons; tauto | lia | done..]. }
  destruct r1 as [x | [bucket info1 | result]].
  - destruct Hres as [_ ->]. by apply Hmin.
  - destruct Hres as (r2 & H2 & _).
    destruct (window_body_trace _ _ _ _ _ _ _ _ _ _ _ H1) as (evs1 & Ht1 & _).
    destruct (window_body_trace _ _ _ _ _ _ _ _ _ _ _ H2) as (evs2 & Ht2 & _).
    rewrite (events_of_trans _ _ _ _ _ Ht1 Ht2) in He.
    apply elem_of_app in He as [He | He].
    + apply Hmin. by rewrite (events_of_app _ _ _ Ht1).
    + rewrite <- (events_of_app _ _ _ Ht2) in He.
      destruct (window_body_write _ _ _ _ _ _ _ _ _ _ _ H2 _ _ _ _ He Hop)
        as (Hk & Ht & _ & Hb).
      exists "hour", 3600, (requests_per_hour (config self)), bucket.
      split_and!; [unfold limits; rewrite !elem_of_cons; tauto | lia | done..|].
      subst key. rewrite (hour_bucket_unchanged _ _ _ _ _ _ _ _ _ H1) in Hb.
      exact Hb.
  - destruct Hres as [_ ->]. by apply Hmin.
Qed.

(** A call that finds nothing under the minute key stops at line 125. *)
Lemma never_seen_key_fails_open self h identifier endpoint custom_limit
    current_time w :
  redis_client self = Some h ->
  stored w (bucket_key identifier endpoint "minute") = None ->
  exists w',
    is_allowed self identifier endpoint custom_limit current_time w
      = ((true, ∅), w') /\
    w_data w' = w_data w /\
    events_of w w' =
      [{| ev_op := OpGet (bucket_key identifier endpoint "minute");
          ev_raised := next_fault w |}].
Proof.
  intros Hc Hs.
  destruct (is_allowed self identifier endpoint custom_limit current_time w)
    as [res w'] eqn:H.
  destruct (is_allowed_inv _ _ _ _ _ _ _ _ _ Hc H) as (r1 & w1 & H1 & Hres).
  destruct (window_body_unbound _ _ _ _ _ _ _ _ _ _ _ H1 Hs eq_refl)
    as ((x & ->) & Hd & Hev).
  destruct Hres as [-> ->]. by exists w1.
Qed.

(** So on a key that was never written no number of calls is ever denied,
    and the key stays unwritten. *)
Lemma never_seen_key_never_limits self h identifier endpoint custom_limit
    current_time n : forall w,
  redis_client self = Some h ->
  stored w (bucket_key identifier endpoint "minute") = None ->
  (calls n self identifier endpoint custom_limit current_time w).1
    = replicate n (true, ∅) /\
  w_data (calls n self identifier endpoint custom_limit current_time w).2
    = w_data w.
Proof.
  induction n as [|n IH]; intros w Hc Hs; [done|].
  destruct (never_seen_key_fails_open _ _ identifier endpoint custom_limit
              current_time _ Hc Hs) as (w1 & Hrun & Hd & _).
  simpl. rewrite Hrun.
  assert (Hs1 : stored w1 (bucket_key identifier endpoint "minute") = None).
  { unfold stored in *. by rewrite Hd. }
  destruct (IH w1 Hc Hs1) as [Hres Hdata].
  destruct (calls n self identifier endpoint custom_limit current_time w1)
    as [results w2]. simpl in *. by rewrite Hres, Hdata, Hd.
Qed.

(** ** Paths through one iteration *)

Section window_paths.
Context (identifier endpoint : string) (current_time : Q).
Context (bucket : option Bucket) (rate_limit_info : Info).
Context (window_name : string) (window_seconds max_requests : Z).
Context (w : World) (b : Bucket).
Hypothesis Hws : window_seconds <> 0.
Hypothesis Hstored :
  stored w (bucket_key identifier endpoint window_name) = Some b.
Hypothesis Hget : next_fault w = false.
Hypothesis Hset :
  next_fault (after_trip w (OpGet (bucket_key identifier endpoint window_name)))
    = false.

(** With a bucket stored, both round trips answered and a limit other than
    0, the iteration denies as soon as the refilled count is below 1. *)
Lemma window_body_denies :
  max_requests <> 0 ->
  (refill (Some b) current_time max_requests
     (inject_Z max_requests / inject_Z window_seconds) < 1)%Q ->
  exists result w1,
    window_body identifier endpoint current_time bucket rate_limit_info
      (window_name, window_seconds, max_requests) w
      = (inr (Return result), w1).
Proof.
  intros Hmx Hlt. apply ge_false in Hlt.
  destruct (window_body identifier endpoint current_time bucket
              rate_limit_info (window_name, window_seconds, max_requests) w)
    as [r w1] eqn:H.
  pose proof H as H'. window_cases H'; try congruence; try lia; eauto.
Qed.

(** With the limit 0 the refilled count is at most 0, the bucket is written
    back, and the division of line 138 raises: the call fails open. *)
Lemma window_body_zero_limit :
  max_requests = 0 ->
  exists w1,
    window_body identifier endpoint current_time bucket rate_limit_info
      (window_name, window_seconds, max_requests) w
      = (inl ZeroDivisionError, w1).
Proof.
  intros ->.
  assert (Hlt : Py.ge (refill (Some b) current_time 0
                         (inject_Z 0 / inject_Z window_seconds)) 1 = false).
  { apply ge_false. eapply Qle_lt_trans; [apply min_le_l|]. reflexivity. }
  destruct (window_body identifier endpoint current_time bucket
              rate_limit_info (window_name, window_seconds, 0) w)
    as [r w1] eqn:H.
  pose proof H as H'. window_cases H'; try congruence; try lia; eauto.
Qed.

End window_paths.

(** ** Headers *)

Lemma limit_headers_lookup self rate_info header_time h :
  limit_headers self rate_info header_time h !! "X-RateLimit-Limit" =
    Some (Py.str (default (requests_per_minute (mw_config self))
                    (rate_info !! "minute_limit"))) /\
  limit_headers self rate_info header_time h !! "X-RateLimit-Remaining" =
    Some (Py.str (default 0 (rate_info !! "minute_remaining"))) /\
  limit_headers self rate_info header_time h !! "X-RateLimit-Reset" =
    Some (Py.str (default (Py.int header_time + 60)
                    (rate_info !! "minute_reset"))) /\
  (forall k, k ∉ rate_limit_headers ->
     limit_headers self rate_info header_time h !! k = h !! k).
Proof.
  unfold limit_headers, rate_limit_headers. split_and!.
  - rewrite !lookup_insert_ne by done. apply lookup_insert_eq.
  - rewrite lookup_insert_ne by done. apply lookup_insert_eq.
  - apply lookup_insert_eq.
  - intros k Hk. rewrite !not_elem_of_cons in Hk.
    destruct Hk as (? & ? & ? & _). by rewrite !lookup_insert_ne.
Qed.

(** ** Strings *)

Lemma append_cons (c : ascii) (a b : string) :
  String c a +:+ b = String c (a +:+ b).
Proof. reflexivity. Qed.

Lemma append_assoc (a b c : string) : (a +:+ b) +:+ c = a +:+ (b +:+ c).
Proof.
  induction a as [|x a IH]; [done|]. by rewrite !append_cons, IH.
Qed.

Lemma prefix_append (p s : string) : String.prefix p (p +:+ s) = true.
Proof.
  induction p as [|c p IH]; [by destruct s|].
  rewrite append_cons. simpl. destruct (ascii_dec c c); [exact IH | done].
Qed.

Lemma list_of_append (a b : string) :
  String.list_ascii_of_string (a +:+ b) =
  String.list_ascii_of_string a ++ String.list_ascii_of_string b.
Proof.
  induction a as [|x a IH]; [done|]. rewrite append_cons. simpl. by rewrite IH.
Qed.

Lemma list_of_string_inj (a b : string) :
  String.list_ascii_of_string a = String.list_ascii_of_string b -> a = b.
Proof.
  intros H. rewrite <- (String.string_of_list_ascii_of_string a),
    <- (String.string_of_list_ascii_of_string b). by rewrite H.
Qed.

Lemma append_inv_tail (s x y : string) : x +:+ s = y +:+ s -> x = y.
Proof.
  intros H. apply list_of_string_inj.
  apply (f_equal String.list_ascii_of_string) in H.
  rewrite !list_of_append in H. by apply app_inv_tail in H.
Qed.

(** The last character of a key is the last character of its window name. *)
Lemma minute_hour_suffix (x y : string) : x +:+ ":minute" <> y +:+ ":hour".
Proof.
  intros H. apply (f_equal String.list_ascii_of_string) in H.
  rewrite !list_of_append in H. apply (f_equal (@last _)) in H.
  rewrite !last_app in H. simpl in H. discriminate.
Qed.

(** Two identifiers never share a bucket on the same endpoint. *)
Lemma bucket_key_identifier_inj a b endpoint wa wb :
  wa ∈ ["minute"; "hour"] -> wb ∈ ["minute"; "hour"] ->
  bucket_key a endpoint wa = bucket_key b endpoint wb -> a = b.
Proof.
  unfold bucket_key. intros Ha Hb H. apply String.app_inj in H.
  rewrite !elem_of_cons, elem_of_nil in Ha, Hb.
  destruct Ha as [-> | [-> | []]], Hb as [-> | [-> | []]].
  - by apply append_inv_tail in H.
  - rewrite <- !append_assoc in H.
    rewrite (append_assoc _ ":" "minute"), (append_assoc _ ":" "hour") in H.
    by apply minute_hour_suffix in H.
  - rewrite <- !append_assoc in H.
    rewrite (append_assoc _ ":" "minute"), (append_assoc _ ":" "hour") in H.
    symmetry in H. by apply minute_hour_suffix in H.
  - by apply append_inv_tail in H.
Qed.

(** ** The entries of [rate_limit_info] *)

Lemma window_info_minute ws mx now nt info :
  window_info "minute" ws mx now nt info =
  <["minute_reset" := Py.int (now + inject_Z ws)]>
    (<["minute_limit" := mx]> (<["minute_remaining" := Py.int nt]> info)).
Proof. reflexivity. Qed.

Lemma window_info_hour ws mx now nt info :
  window_info "hour" ws mx now nt info =
  <["hour_reset" := Py.int (now + inject_Z ws)]>
    (<["hour_limit" := mx]> (<["hour_remaining" := Py.int nt]> info)).
Proof. reflexivity. Qed.

(** The shape of the result of a call of a connected limiter, window by
    window. *)
Lemma is_allowed_result self h identifier endpoint custom_limit current_time
    w res w' :
  redis_client self = Some h ->
  is_allowed self identifier endpoint custom_limit current_time w = (res, w') ->
  let mx := Py.or_int custom_limit (requests_per_minute (config self)) in
  let rph := requests_per_hour (config self) in
  let ntm := refill (stored w (bucket_key identifier endpoint "minute"))
               current_time mx (inject_Z mx / inject_Z 60) in
  let nth := refill (stored w (bucket_key identifier endpoint "hour"))
               current_time rph (inject_Z rph / inject_Z 3600) in
  let minute_info nt := window_info "minute" 60 mx current_time nt ∅ in
  res = (true, ∅) \/
  (mx <> 0 /\ (ntm < 1)%Q /\
   res = (false, <["retry_after" := Py.int (spec_retry_after ntm 60 mx)]>
                   (minute_info ntm))) \/
  ((1 <= ntm)%Q /\ rph <> 0 /\ (nth < 1)%Q /\
   res = (false, <["retry_after" := Py.int (spec_retry_after nth 3600 rph)]>
                   (window_info "hour" 3600 rph current_time nth
                      (minute_info (ntm - 1)%Q)))) \/
  ((1 <= ntm)%Q /\ (1 <= nth)%Q /\
   res = (true, window_info "hour" 3600 rph current_time (nth - 1)%Q
                  (minute_info (ntm - 1)%Q))).
Proof.
  intros Hc H. cbv zeta.
  destruct (is_allowed_inv _ _ _ _ _ _ _ _ _ Hc H) as (r1 & w1 & H1 & Hres).
  destruct r1 as [x | [bucket info1 | result]].
  - left. by destruct Hres.
  - destruct Hres as (r2 & H2 & Hres).
    destruct (window_body_next _ _ _ _ _ _ _ _ _ _ _ H1 _ _ eq_refl)
      as (Hge & _ & -> & _).
    rewrite <- (hour_bucket_unchanged _ _ _ _ _ _ _ _ _ H1).
    destruct r2 as [x | [bucket2 info2 | result]].
    + by left.
    + destruct (window_body_next _ _ _ _ _ _ _ _ _ _ _ H2 _ _ eq_refl)
        as (Hge2 & _ & -> & _).
      right; right; right. done.
    + destruct (window_body_deny _ _ _ _ _ _ _ _ _ _ _ H2 _ eq_refl)
        as (Hmx & Hlt & ->).
      right; right; left. subst res. done.
  - destruct Hres as [-> _].
    destruct (window_body_deny _ _ _ _ _ _ _ _ _ _ _ H1 _ eq_refl)
      as (Hmx & Hlt & ->).
    right; left. done.
Qed.

(** ** Keys and isolation *)

Lemma is_allowed_frame self identifier endpoint custom_limit current_time
    w res w' k :
  is_allowed self identifier endpoint custom_limit current_time w = (res, w') ->
  (forall window_name, window_name ∈ ["minute"; "hour"] ->
     k <> bucket_key identifier endpoint window_name) ->
  w_data w' !! k = w_data w !! k.
Proof.
  unfold is_allowed. intros H Hk.
  destruct (redis_client self); [|by simplify_eq].
  eapply for_limits_frame; [exact H|].
  intros lim Hin. apply Hk.
  destruct (limits_elem _ _ _ Hin) as [-> | ->]; simpl;
    rewrite !elem_of_cons; tauto.
Qed.

(** The body of the loop in closed form. *)
Lemma window_body_unfold identifier endpoint current_time bucket info
    window_name window_seconds max_requests w :
  window_body identifier endpoint current_time bucket info
    (window_name, window_seconds, max_requests) w =
  let key := bucket_key identifier endpoint window_name in
  let g := after_trip w (OpGet key) in
  if next_fault w then (inl RedisError, g)
  else if window_seconds =? 0 then (inl ZeroDivisionError, g)
  else
    let bucket_data := stored w key in
    let refilled :=
      refill bucket_data current_time max_requests
        (inject_Z max_requests / inject_Z window_seconds) in
    let allowed := Py.ge refilled 1 in
    let new_tokens := if allowed then (refilled - 1)%Q else refilled in
    match match bucket_data with Some b => Some b | None => bucket end with
    | None => (inl UnboundLocalError, g)
    | Some b =>
        let state := bucket_state_of b new_tokens current_time allowed in
        let s := after_trip g (OpSetex key (window_seconds * 2) state) in
        if next_fault g then (inl RedisError, s)
        else
          let s' := {| w_data := <[key := (window_seconds * 2, state)]> (w_data s);
                       w_faults := w_faults s;
                       w_trace := w_trace s |} in
          let info' :=
            window_info window_name window_seconds max_requests current_time
              new_tokens info in
          if allowed then (inr (Next (Some b) info'), s')
          else if max_requests =? 0 then (inl ZeroDivisionError, s')
          else
            (inr (Return
                    (false,
                     <["retry_after" :=
                         Py.int ((1 - new_tokens) *
                                 (inject_Z window_seconds /
                                  inject_Z max_requests))]> info')), s')
    end.
Proof.
  unfold window_body, redis_get, redis_setex, round_trip, bind, lift, ret,
    raise, Py.truediv. cbv beta iota zeta.
  destruct (next_fault w); [reflexivity|].
  cbv beta iota. rewrite stored_after_trip.
  destruct (window_seconds =? 0); [reflexivity|]. cbv beta iota.
  destruct (stored w (bucket_key identifier endpoint window_name)) as [b|];
    [|destruct bucket as [b|]; [|reflexivity]].
  all: cbv beta iota.
  all: destruct (next_fault (after_trip w _)); [reflexivity|]; cbv beta iota.
  all: destruct (Py.ge _ 1); [reflexivity|]; cbv beta iota.
  all: destruct (max_requests =? 0); reflexivity.
Qed.

(** One iteration sees of the world only the fault schedule and the bucket
    under its key. *)
Lemma window_body_ext identifier endpoint current_time bucket info lim w1 w2 :
  w_faults w1 = w_faults w2 ->
  stored w1 (bucket_key identifier endpoint (window_name_of lim))
    = stored w2 (bucket_key identifier endpoint (window_name_of lim)) ->
  (window_body identifier endpoint current_time bucket info lim w1).1
    = (window_body identifier endpoint current_time bucket info lim w2).1 /\
  w_faults (window_body identifier endpoint current_time bucket info lim w1).2
    = w_faults (window_body identifier endpoint current_time bucket info lim w2).2 /\
  (forall k, stored w1 k = stored w2 k ->
     stored (window_body identifier endpoint current_time bucket info lim w1).2 k
     = stored (window_body identifier endpoint current_time bucket info lim w2).2 k).
Proof.
  destruct lim as [[wn ws] mx].
  change (window_name_of (wn, ws, mx)) with wn.
  intros Hf Hs. rewrite !window_body_unfold. cbv zeta.
  assert (Hn : next_fault w1 = next_fault w2)
    by (unfold next_fault; by rewrite Hf).
  assert (Hn2 : forall o,
            next_fault (after_trip w1 o) = next_fault (after_trip w2 o))
    by (intros; unfold next_fault, after_trip; simpl; by rewrite Hf).
  rewrite Hn, Hs, Hn2.
  destruct (next_fault w2); [simpl; by rewrite Hf|].
  destruct (ws =? 0); [simpl; by rewrite Hf|].
  destruct (match stored w2 _ with Some b => Some b | None => bucket end)
    as [b|]; [|simpl; by rewrite Hf].
  destruct (next_fault (after_trip w2 _)); [simpl; by rewrite Hf|].
  assert (forall v k, stored w1 k = stored w2 k ->
            snd <$> (<[bucket_key identifier endpoint wn := v]> (w_data w1) !! k)
            = snd <$> (<[bucket_key identifier endpoint wn := v]> (w_data w2) !! k))
    as Hins.
  { intros v k Hk. unfold stored in Hk.
    destruct (decide (bucket_key identifier endpoint wn = k)) as [-> | Hne];
      [by rewrite !lookup_insert_eq | by rewrite !lookup_insert_ne]. }
  destruct (Py.ge _ 1); [|destruct (mx =? 0)]; simpl; rewrite Hf;
    (split_and!; [done | done | intros k Hk; by apply Hins]).
Qed.

Lemma window_body_no_faults identifier endpoint current_time bucket info lim w :
  w_faults w = [] ->
  w_faults (window_body identifier endpoint current_time bucket info lim w).2 = [].
Proof.
  destruct lim as [[wn ws] mx]. intros Hf.
  rewrite window_body_unfold. cbv zeta.
  repeat case_match; simpl; by rewrite Hf.
Qed.

Lemma for_limits_no_faults identifier endpoint current_time ls :
  forall bucket info w,
  w_faults w = [] ->
  w_faults (for_limits identifier endpoint current_time bucket info ls w).2 = [].
Proof.
  induction ls as [|lim rest IH]; intros bucket info w Hf; [done|].
  rewrite for_limits_cons.
  pose proof (window_body_no_faults identifier endpoint current_time bucket
                info lim w Hf) as H1.
  destruct (window_body identifier endpoint current_time bucket info lim w)
    as [[x | [b i | result]] w1]; simpl in *; try done.
  by apply IH.
Qed.

Lemma for_limits_ext identifier endpoint current_time ls :
  forall bucket info w1 w2,
  w_faults w1 = w_faults w2 ->
  (forall lim, lim ∈ ls ->
     stored w1 (bucket_key identifier endpoint (window_name_of lim))
     = stored w2 (bucket_key identifier endpoint (window_name_of lim))) ->
  (for_limits identifier endpoint current_time bucket info ls w1).1
  = (for_limits identifier endpoint current_time bucket info ls w2).1.
Proof.
  induction ls as [|lim rest IH]; intros bucket info w1 w2 Hf Hs; [done|].
  rewrite !for_limits_cons.
  destruct (window_body_ext identifier endpoint current_time bucket info lim
              w1 w2 Hf (Hs lim ltac:(left))) as (Hr & Hf' & Hs').
  destruct (window_body identifier endpoint current_time bucket info lim w1)
    as [r1 w1'].
  destruct (window_body identifier endpoint current_time bucket info lim w2)
    as [r2 w2']. simpl in *. subst r2.
  destruct r1 as [x | [b i | result]]; try done.
  apply IH; [done|]. intros lim' Hin. apply Hs', Hs. by right.
Qed.

(** The key does not separate the identifier from the endpoint. *)
Lemma bucket_key_shift a b c window_name :
  bucket_key (a +:+ ":" +:+ b) c window_name
  = bucket_key a (b +:+ ":" +:+ c) window_name.
Proof. unfold bucket_key. by rewrite !append_assoc. Qed.

(** ** What a denial writes *)

(** A denying iteration writes the refilled bucket back, nothing consumed. *)
Lemma window_body_deny_data identifier endpoint current_time bucket info
    window_name window_seconds max_requests w w' result :
  window_body identifier endpoint current_time bucket info
    (window_name, window_seconds, max_requests) w = (inr (Return result), w') ->
  let key := bucket_key identifier endpoint window_name in
  let new_tokens :=
    refill (stored w key) current_time max_requests
      (inject_Z max_requests / inject_Z window_seconds) in
  exists b,
    match stored w key with Some b' => Some b' | None => bucket end = Some b /\
    w_data w' !! key =
      Some (window_seconds * 2,
            bucket_state_of b new_tokens current_time false).
Proof.
  intros H. pose proof H as H'. window_cases H'.
  all: eexists; split; [reflexivity|]; simpl; by rewrite lookup_insert_eq.
Qed.

(** ** Remaining counts *)

Lemma int_after_consuming q m :
  (1 <= q)%Q -> (q <= inject_Z m)%Q -> 0 <= Py.int (q - 1) <= m - 1.
Proof.
  intros H1 Hm.
  assert (H0 : (0 <= q - 1)%Q) by lra.
  rewrite (int_floor _ H0). split.
  - change 0 with (Qfloor 0). by apply Qfloor_resp_le.
  - rewrite <- (Qfloor_Z (m - 1)). apply Qfloor_resp_le.
    unfold Z.sub. rewrite inject_Z_plus, inject_Z_opp.
    change (inject_Z 1) with 1%Q. lra.
Qed.

(** ** The effect of one iteration *)

Lemma window_body_effect identifier endpoint current_time bucket info lim w :
  let run := window_body identifier endpoint current_time bucket info lim w in
  (length (w_trace run.2) <= length (w_trace w) + 2)%nat /\
  (forall k, is_Some (w_data w !! k) -> is_Some (w_data run.2 !! k)).
Proof.
  destruct lim as [[wn ws] mx]. cbv zeta.
  rewrite window_body_unfold. cbv zeta.
  repeat case_match; simpl; rewrite ?length_app; simpl; (split; [lia|]).
  all: intros k Hk; try done.
  all: destruct (decide (bucket_key identifier endpoint wn = k)) as [-> | Hne];
    [rewrite lookup_insert_eq; eauto | by rewrite lookup_insert_ne].
Qed.

(** ** Runs without store failures *)

Lemma no_faults_next w : w_faults w = [] -> next_fault w = false.
Proof. unfold next_fault. by intros ->. Qed.

Lemma no_faults_after_trip w op : w_faults w = [] -> w_faults (after_trip w op) = [].
Proof. unfold after_trip. simpl. by intros ->. Qed.

Section forward.
Context (identifier endpoint : string) (current_time : Q).
Context (bucket : option Bucket) (info : Info).
Context (window_name : string) (window_seconds max_requests : Z).
Context (w : World) (b : Bucket).
Hypothesis Hws : window_seconds <> 0.
Hypothesis Hfaults : w_faults w = [].
Hypothesis Hstored :
  stored w (bucket_key identifier endpoint window_name) = Some b.

Lemma window_body_admits :
  let key := bucket_key identifier endpoint window_name in
  let nt := refill (Some b) current_time max_requests
              (inject_Z max_requests / inject_Z window_seconds) in
  (1 <= nt)%Q ->
  exists w',
    window_body identifier endpoint current_time bucket info
      (window_name, window_seconds, max_requests) w
    = (inr (Next (Some b)
              (window_info window_name window_seconds max_requests
                 current_time (nt - 1)%Q info)), w') /\
    w_faults w' = [] /\
    stored w' key = Some (bucket_state_of b (nt - 1)%Q current_time true) /\
    (forall k, k <> key -> stored w' k = stored w k).
Proof.
  intros key nt Hge. rewrite window_body_unfold. cbv zeta.
  rewrite (no_faults_next _ Hfaults), Hstored.
  rewrite (no_faults_next _ (no_faults_after_trip _ _ Hfaults)).
  apply Z.eqb_neq in Hws. rewrite Hws.
  apply ge_true in Hge. fold nt. rewrite Hge.
  eexists. split; [reflexivity|]. simpl. rewrite Hfaults.
  split_and!; [done | |].
  - unfold stored. simpl. by rewrite lookup_insert_eq.
  - intros k Hk. unfold stored. simpl. by rewrite lookup_insert_ne.
Qed.

Lemma window_body_denies_forward :
  let key := bucket_key identifier endpoint window_name in
  let nt := refill (Some b) current_time max_requests
              (inject_Z max_requests / inject_Z window_seconds) in
  max_requests <> 0 -> (nt < 1)%Q ->
  exists w',
    window_body identifier endpoint current_time bucket info
      (window_name, window_seconds, max_requests) w
    = (inr (Return
              (false,
               <["retry_after" :=
                   Py.int (spec_retry_after nt window_seconds max_requests)]>
                 (window_info window_name window_seconds max_requests
                    current_time nt info))), w') /\
    w_faults w' = [] /\
    stored w' key = Some (bucket_state_of b nt current_time false) /\
    (forall k, k <> key -> stored w' k = stored w k).
Proof.
  intros key nt Hmx Hlt. rewrite window_body_unfold. cbv zeta.
  rewrite (no_faults_next _ Hfaults), Hstored.
  rewrite (no_faults_next _ (no_faults_after_trip _ _ Hfaults)).
  apply Z.eqb_neq in Hws. rewrite Hws.
  apply Z.eqb_neq in Hmx. rewrite Hmx.
  apply ge_false in Hlt. fold nt. rewrite Hlt.
  eexists. split; [reflexivity|]. simpl. rewrite Hfaults.
  split_and!; [done | |].
  - unfold stored. simpl. by rewrite lookup_insert_eq.
  - intros k Hk. unfold stored. simpl. by rewrite lookup_insert_ne.
Qed.

End forward.

Section forward_call.
Context (self : TokenBucketRateLimiter) (h : RedisHandle).
Context (identifier endpoint : string) (custom_limit : option Z).
Context (current_time : Q) (w : World) (bm : Bucket).
Hypothesis Hclient : redis_client self = Some h.
Hypothesis Hfaults : w_faults w = [].
Hypothesis Hminute :
  stored w (bucket_key identifier endpoint "minute") = Some bm.

(** A call on a stored minute bucket that holds less than a token is a
    denial by the minute window. *)
Lemma is_allowed_minute_denies :
  let mx := Py.or_int custom_limit (requests_per_minute (config self)) in
  let nt := refill (Some bm) current_time mx (inject_Z mx / inject_Z 60) in
  mx <> 0 -> (nt < 1)%Q ->
  exists w',
    is_allowed self identifier endpoint custom_limit current_time w
    = ((false,
        <["retry_after" := Py.int (spec_retry_after nt 60 mx)]>
          (window_info "minute" 60 mx current_time nt ∅)), w') /\
    w_faults w' = [] /\
    stored w' (bucket_key identifier endpoint "minute")
      = Some (bucket_state_of bm nt current_time false) /\
    stored w' (bucket_key identifier endpoint "hour")
      = stored w (bucket_key identifier endpoint "hour").
Proof.
  intros mx nt Hmx Hlt.
  destruct (window_body_denies_forward identifier endpoint current_time None ∅
              "minute" 60 mx w bm ltac:(lia) Hfaults Hminute Hmx Hlt)
    as (w' & Hrun & Hf & Hs & Hframe).
  exists w'. unfold is_allowed, limits. rewrite Hclient, for_limits_cons.
  fold mx. rewrite Hrun. split_and!; try done.
  apply Hframe. intros E. symmetry in E. by apply minute_hour_keys in E.
Qed.

(** A call on two stored buckets that both hold a token is an admission,
    and each bucket loses one token. *)
Lemma is_allowed_both_admit bh :
  let mx := Py.or_int custom_limit (requests_per_minute (config self)) in
  let rph := requests_per_hour (config self) in
  let ntm := refill (Some bm) current_time mx (inject_Z mx / inject_Z 60) in
  let nth := refill (Some bh) current_time rph (inject_Z rph / inject_Z 3600) in
  stored w (bucket_key identifier endpoint "hour") = Some bh ->
  (1 <= ntm)%Q -> (1 <= nth)%Q ->
  exists info w',
    is_allowed self identifier endpoint custom_limit current_time w
    = ((true, info), w') /\
    w_faults w' = [] /\
    stored w' (bucket_key identifier endpoint "minute")
      = Some (bucket_state_of bm (ntm - 1)%Q current_time true) /\
    stored w' (bucket_key identifier endpoint "hour")
      = Some (bucket_state_of bh (nth - 1)%Q current_time true).
Proof.
  intros mx rph ntm nth Hhour Hm Hh.
  destruct (window_body_admits identifier endpoint current_time None ∅
              "minute" 60 mx w bm ltac:(lia) Hfaults Hminute Hm)
    as (w1 & Hrun1 & Hf1 & Hs1 & Hframe1).
  assert (Hhour1 : stored w1 (bucket_key identifier endpoint "hour") = Some bh).
  { rewrite Hframe1; [done|]. intros E. symmetry in E.
    by apply minute_hour_keys in E. }
  destruct (window_body_admits identifier endpoint current_time (Some bm)
              (window_info "minute" 60 mx current_time (ntm - 1)%Q ∅)
              "hour" 3600 rph w1 bh ltac:(lia) Hf1 Hhour1 Hh)
    as (w2 & Hrun2 & Hf2 & Hs2 & Hframe2).
  do 2 eexists. unfold is_allowed, limits.
  subst ntm nth mx rph.
  rewrite Hclient, for_limits_cons, Hrun1.
  cbv beta iota. rewrite for_limits_cons, Hrun2. simpl.
  split_and!; [reflexivity | done | | done].
  rewrite Hframe2; [done|]. apply minute_hour_keys.
Qed.

End forward_call.

(** ** Refills *)

Lemma min_eq_r a b : (b <= a)%Q -> (Py.min a b == b)%Q.
Proof.
  intros H. unfold Py.min. destruct (Py.lt b a) eqn:E; [reflexivity|].
  unfold Py.lt in E. apply negb_false_iff, Qle_bool_iff in E.
  by apply Qle_antisym.
Qed.

Lemma refill_at_least bucket_data current_time max_requests window_seconds c :
  0 < window_seconds -> 0 <= max_requests ->
  (c <= inject_Z max_requests)%Q ->
  (c <= tokens_of bucket_data max_requests)%Q ->
  (last_refill_of bucket_data current_time <= current_time)%Q ->
  (c <= refill bucket_data current_time max_requests
          (inject_Z max_requests / inject_Z window_seconds))%Q.
Proof.
  intros Hws Hmx Hc Ht Hlr. unfold refill. apply min_glb; [done|].
  pose proof (rate_nonneg _ _ Hmx Hws) as Hr.
  assert (He : (0 <= current_time - last_refill_of bucket_data current_time)%Q)
    by lra.
  pose proof (Qmult_le_0_compat _ _ He Hr). lra.
Qed.

Lemma refill_exact bucket_data current_time max_requests rate T :
  (last_refill_of bucket_data current_time == current_time)%Q ->
  (tokens_of bucket_data max_requests == T)%Q ->
  (T <= inject_Z max_requests)%Q ->
  (refill bucket_data current_time max_requests rate == T)%Q.
Proof.
  intros Hlr Ht Hle. unfold refill.
  set (lr := last_refill_of bucket_data current_time) in *.
  set (tk := tokens_of bucket_data max_requests) in *.
  assert (Hz : ((current_time - lr) * rate == 0)%Q).
  { assert (E : (current_time - lr == 0)%Q) by lra. rewrite E. ring. }
  revert Hz. generalize ((current_time - lr) * rate)%Q. intros z Hz.
  pose proof (min_eq_r (inject_Z max_requests) (tk + z) ltac:(lra)). lra.
Qed.

Lemma floor_of_quotient a b : 0 < b -> Qfloor (inject_Z a / inject_Z b) = a / b.
Proof.
  intros Hb. destruct b as [|p|p]; try lia.
  unfold Qdiv, Qmult, Qinv, inject_Z, Qfloor. simpl.
  by rewrite Z.mul_1_r.
Qed.

Lemma int_of_full_wait nt mx :
  0 < mx -> (nt == 0)%Q -> Py.int (spec_retry_after nt 60 mx) = 60 / mx.
Proof.
  intros Hmx Hnt.
  assert (Hr : (0 <= inject_Z 60 / inject_Z mx)%Q)
    by (apply rate_nonneg; lia).
  assert (E : (spec_retry_after nt 60 mx == inject_Z 60 / inject_Z mx)%Q).
  { unfold spec_retry_after. rewrite Hnt. ring. }
  rewrite int_floor by (rewrite E; exact Hr).
  rewrite E. by apply floor_of_quotient.
Qed.

(** ** The client address *)

Lemma split_has_no_comma s : has_comma (Py.split_comma_0 s) = false.
Proof.
  induction s as [|c r IH]; [done|]. simpl.
  destruct (Ascii.eqb c ",") eqn:E; [done|]. simpl. by rewrite E.
Qed.

Lemma lstrip_keeps_no_comma s : has_comma s = false -> has_comma (Py.lstrip s) = false.
Proof.
  induction s as [|c r IH]; [done|]. simpl. intros H.
  apply orb_false_iff in H as [Hc Hr].
  destruct (Py.isspace c); [by apply IH|]. simpl. by rewrite Hc, Hr.
Qed.

Lemma rstrip_keeps_no_comma s : has_comma s = false -> has_comma (Py.rstrip s) = false.
Proof.
  induction s as [|c r IH]; [done|]. simpl. intros H.
  apply orb_false_iff in H as [Hc Hr]. specialize (IH Hr).
  destruct (Py.rstrip r) as [|c' r'].
  - destruct (Py.isspace c); [done|]. simpl. by rewrite Hc.
  - simpl in *. by rewrite Hc, IH.
Qed.

Lemma lstrip_head s :
  Py.lstrip s = EmptyString \/ exists c r, Py.lstrip s = String c r /\ Py.isspace c = false.
Proof.
  induction s as [|c r IH]; [by left|]. simpl.
  destruct (Py.isspace c) eqn:E; [exact IH|]. right. by exists c, r.
Qed.

Lemma rstrip_head c r :
  Py.isspace c = false -> exists r', Py.rstrip (String c r) = String c r'.
Proof.
  intros E. simpl. destruct (Py.rstrip r); rewrite ?E; eauto.
Qed.

Lemma rstrip_idem s : Py.rstrip (Py.rstrip s) = Py.rstrip s.
Proof.
  induction s as [|c r IH]; [done|]. simpl.
  destruct (Py.rstrip r) as [|c' r'] eqn:Er.
  - destruct (Py.isspace c) eqn:E; [done|]. simpl. by rewrite E.
  - change (Py.rstrip (String c (String c' r')))
      with (match Py.rstrip (String c' r') with
            | EmptyString => if Py.isspace c then EmptyString else String c EmptyString
            | x => String c x
            end).
    by rewrite IH.
Qed.

Lemma strip_idem s : Py.strip (Py.strip s) = Py.strip s.
Proof.
  unfold Py.strip.
  destruct (lstrip_head s) as [-> | (c & r & -> & E)]; [done|].
  destruct (rstrip_head c r E) as [r' Hr]. rewrite Hr.
  simpl Py.lstrip. rewrite E, <- Hr. apply rstrip_idem.
Qed.

Lemma lstrip_empty s : Py.lstrip s = EmptyString <-> all_space s = true.
Proof.
  induction s as [|c r IH]; [done|]. simpl.
  destruct (Py.isspace c); simpl; [exact IH|]. split; discriminate.
Qed.

Lemma strip_empty s : Py.strip s = EmptyString <-> all_space s = true.
Proof.
  rewrite <- lstrip_empty. unfold Py.strip. split; [|by intros ->].
  destruct (lstrip_head s) as [-> | (c & r & -> & E)]; [done|].
  destruct (rstrip_head c r E) as [r' ->]. discriminate.
Qed.

(** ** The identifier *)

Lemma split_without_comma s : has_comma s = false -> Py.split_comma_0 s = s.
Proof.
  induction s as [|c r IH]; simpl; [done|].
  destruct (Ascii.eqb c ","%char); [done|]. intros H. by rewrite IH.
Qed.

(** ** The refill of an absent bucket *)

Lemma refill_of_nothing current_time max_requests rate :
  refill None current_time max_requests rate = inject_Z max_requests.
Proof.
  unfold refill, Py.min, Py.lt. simpl.
  assert (H : Qle_bool (inject_Z max_requests)
                (inject_Z max_requests + (current_time - current_time) * rate)
              = true); [|by rewrite H].
  apply Qle_bool_iff.
  assert (E : ((current_time - current_time) * rate == 0)%Q) by ring.
  rewrite E. lra.
Qed.

(** ** Bounds of [retry_after] *)



(** ** A call past the minute window *)

Ltac info_lookup :=
  rewrite ?window_info_hour, ?window_info_minute; unfold Info;
  repeat (rewrite lookup_insert_ne by done);
  rewrite ?lookup_insert_eq, ?lookup_empty.

(** A call whose minute window admits, on a store that answers: the hour
    window decides, and both buckets are written. *)
Lemma is_allowed_past_the_minute self h identifier endpoint custom_limit
    current_time w bm bh :
  let mx := Py.or_int custom_limit (requests_per_minute (config self)) in
  let rph := requests_per_hour (config self) in
  let ntm := refill (Some bm) current_time mx (inject_Z mx / inject_Z 60) in
  let nth := refill (Some bh) current_time rph (inject_Z rph / inject_Z 3600) in
  let allowed := Py.ge nth 1 in
  let nth' := if allowed then (nth - 1)%Q else nth in
  let hour_info :=
    window_info "hour" 3600 rph current_time nth'
      (window_info "minute" 60 mx current_time (ntm - 1)%Q ∅) in
  redis_client self = Some h ->
  w_faults w = [] ->
  stored w (bucket_key identifier endpoint "minute") = Some bm ->
  stored w (bucket_key identifier endpoint "hour") = Some bh ->
  (1 <= ntm)%Q -> rph <> 0 ->
  exists w',
    is_allowed self identifier endpoint custom_limit current_time w
    = ((allowed,
        if allowed then hour_info
        else <["retry_after" := Py.int (spec_retry_after nth 3600 rph)]>
               hour_info), w') /\
    stored w' (bucket_key identifier endpoint "minute")
      = Some (bucket_state_of bm (ntm - 1)%Q current_time true) /\
    stored w' (bucket_key identifier endpoint "hour")
      = Some (bucket_state_of bh nth' current_time allowed).
Proof.
  intros mx rph ntm nth allowed nth' hour_info Hc Hf Hm Hh Hge Hrph.
  destruct (window_body_admits identifier endpoint current_time None ∅
              "minute" 60 mx w bm ltac:(lia) Hf Hm Hge)
    as (w1 & Hrun1 & Hf1 & Hs1 & Hframe1).
  assert (Hh1 : stored w1 (bucket_key identifier endpoint "hour") = Some bh).
  { rewrite Hframe1; [done|]. intros E. symmetry in E.
    by apply minute_hour_keys in E. }
  subst hour_info nth' allowed. destruct (Py.ge nth 1) eqn:Ea.
  - apply ge_true in Ea.
    destruct (window_body_admits identifier endpoint current_time (Some bm)
                (window_info "minute" 60 mx current_time (ntm - 1)%Q ∅)
                "hour" 3600 rph w1 bh ltac:(lia) Hf1 Hh1 Ea)
      as (w2 & Hrun2 & Hf2 & Hs2 & Hframe2).
    exists w2. unfold is_allowed, limits. subst ntm nth mx rph.
    rewrite Hc, for_limits_cons, Hrun1. cbv beta iota.
    rewrite for_limits_cons, Hrun2. simpl. split_and!; [done | | done].
    rewrite Hframe2; [done|]. apply minute_hour_keys.
  - apply ge_false in Ea.
    destruct (window_body_denies_forward identifier endpoint current_time
                (Some bm)
                (window_info "minute" 60 mx current_time (ntm - 1)%Q ∅)
                "hour" 3600 rph w1 bh ltac:(lia) Hf1 Hh1 Hrph Ea)
      as (w2 & Hrun2 & Hf2 & Hs2 & Hframe2).
    exists w2. unfold is_allowed, limits. subst ntm nth mx rph.
    rewrite Hc, for_limits_cons, Hrun1. cbv beta iota.
    rewrite for_limits_cons, Hrun2. simpl. split_and!; [done | | done].
    rewrite Hframe2; [done|]. apply minute_hour_keys.
Qed.

(** * The claims *)

(** ** C1: the scenario of five requests a minute *)

(** C1, as the code runs it.  With [requests_per_minute = 5] and a store
    that holds nothing, six calls for identifier "1.2.3.4" and endpoint
    "/test" made at one instant all return [(True, {})], and the store is
    still empty afterwards: each call finds no bucket, reaches line 125 with
    [bucket] unbound, and the [except] turns the [UnboundLocalError] into an
    admission.  The sixth call is not denied. *)
Theorem six_calls_on_a_fresh_store current_time :
  (calls 6 limiter5 "1.2.3.4" "/test" None current_time empty_world).1
    = replicate 6 (true, ∅) /\
  w_data (calls 6 limiter5 "1.2.3.4" "/test" None current_time empty_world).2
    = ∅.
Proof. split; vm_compute; reflexivity. Qed.

(** When both buckets are already stored and full, the same six calls go as
    the scenario reads: five admissions, then a denial with
    [retry_after = 12]. *)
Example six_calls_on_seeded_buckets :
  let results :=
    (calls 6 limiter5 "1.2.3.4" "/test" None 1000 (full_world [])).1 in
  fst <$> results = [true; true; true; true; true; false] /\
  (snd <$> results) !! 5%nat ≫= (.!! "retry_after") = Some 12.
Proof. split; vm_compute; reflexivity. Qed.

(** ** C2: the first request for a key *)

(** C2, as the code runs it.  For every call of a connected limiter whose
    minute key holds no bucket, [is_allowed] returns [(True, {})] and leaves
    the store as it was: it makes no [setex], no bucket is persisted for the
    key, and the next call finds none either. *)
Theorem first_request_not_persisted self h identifier endpoint custom_limit
    current_time w :
  redis_client self = Some h ->
  stored w (bucket_key identifier endpoint "minute") = None ->
  exists w',
    is_allowed self identifier endpoint custom_limit current_time w
      = ((true, ∅), w') /\
    w_data w' = w_data w /\
    (forall e key ttl value,
       e ∈ events_of w w' -> ev_op e <> OpSetex key ttl value) /\
    stored w' (bucket_key identifier endpoint "minute") = None.
Proof.
  intros Hc Hs.
  destruct (never_seen_key_fails_open _ _ identifier endpoint custom_limit
              current_time _ Hc Hs) as (w' & Hrun & Hd & Hev).
  exists w'. split_and!; [done | done | |].
  - intros e key ttl value He. rewrite Hev in He.
    apply list_elem_of_singleton in He as ->. done.
  - unfold stored in *. by rewrite Hd.
Qed.

Lemma first_request_not_persisted_witness :
  exists w',
    is_allowed limiter5 "1.2.3.4" "/test" None 1000 empty_world
      = ((true, ∅), w') /\
    w_data w' = w_data empty_world /\
    (forall e key ttl value,
       e ∈ events_of empty_world w' -> ev_op e <> OpSetex key ttl value) /\
    stored w' (bucket_key "1.2.3.4" "/test" "minute") = None.
Proof.
  apply (first_request_not_persisted limiter5 (FromUrl "redis://localhost:6379")).
  - reflexivity.
  - vm_compute. reflexivity.
Defined.

(** The hour window does write a bucket for a key it has not seen, when the
    minute window has found one: [bucket] is then still bound to the minute
    bucket, and the hour bucket starts from that bucket's [requests_made]. *)
Example hour_bucket_inherits_requests_made :
  let w := mk_world (Some (mk_bucket 5 1000 7)) None [] in
  stored (is_allowed limiter5 "1.2.3.4" "/test" None 1000 w).2
    (bucket_key "1.2.3.4" "/test" "hour")
  = Some (mk_bucket (1000 - 1) 1000 (7 + 1)).
Proof. vm_compute. reflexivity. Qed.

(** ** C3: fail-open *)

(** C3.  When the limiter has no client, or when a round trip to the store
    raises during the window checks, [is_allowed] returns exactly
    [(True, {})].  Without a client the store is not touched; otherwise the
    round trip that raised is the last one of the call, so nothing is
    retried. *)
Theorem is_allowed_fail_open self identifier endpoint custom_limit
    current_time w res w' :
  is_allowed self identifier endpoint custom_limit current_time w = (res, w') ->
  redis_client self = None \/
    (exists e, e ∈ events_of w w' /\ ev_raised e = true) ->
  res = (true, ∅) /\
  ((redis_client self = None /\ w' = w) \/
   exists good e, events_of w w' = good ++ [e] /\ calm good /\
                  ev_raised e = true).
Proof.
  unfold is_allowed. intros H Hfail.
  destruct (redis_client self) as [h|] eqn:Hc.
  - destruct Hfail as [? | (e & He & Hr)]; [done|].
    destruct (for_limits_trace _ _ _ _ _ _ _ _ _ H) as (evs & Ht & _ & Hl).
    rewrite (events_of_app _ _ _ Ht) in He |- *.
    destruct (raises_last_elim _ _ _ Hl He Hr) as [-> Hlast].
    split; [done | by right].
  - simplify_eq. split; [done | by left].
Qed.

Lemma is_allowed_fail_open_witness :
  (is_allowed limiter5 "1.2.3.4" "/test" None 1000
     (mk_world (Some (mk_bucket 0 1000 5)) (Some (mk_bucket 995 1000 5))
        [true])).1 = (true, ∅).
Proof.
  eapply is_allowed_fail_open.
  - apply surjective_pairing.
  - right. eexists. split.
    + apply list_elem_of_lookup_2 with (i := 0%nat). vm_compute. reflexivity.
    + reflexivity.
Defined.

(** ** C4: the store key *)

(** C4 as stated fails: the call for "1.2.3.4" and "/test" makes a round trip
    whose key is not ["ratelimit:1.2.3.4:/test:{window_name}"] for any window
    name. *)
Lemma key_is_not_the_specified_one :
  exists e,
    e ∈ events_of (full_world [])
          (is_allowed limiter5 "1.2.3.4" "/test" None 1000 (full_world [])).2 /\
    op_key (ev_op e) = "rate_limit:1.2.3.4:/test:minute" /\
    forall window_name,
      op_key (ev_op e) <> spec_key "1.2.3.4" "/test" window_name.
Proof.
  exists {| ev_op := OpGet "rate_limit:1.2.3.4:/test:minute";
            ev_raised := false |}.
  split_and!.
  - apply list_elem_of_lookup_2 with (i := 0%nat). vm_compute. reflexivity.
  - reflexivity.
  - intros wn Hwn. vm_compute in Hwn. discriminate Hwn.
Qed.

(** C4, amended.  Every round trip of a call reads or writes the key
    ["rate_limit:{identifier}:{endpoint}:{window_name}"], for the window
    "minute" or "hour", and the store is unchanged under every other key. *)
Theorem is_allowed_store_keys self identifier endpoint custom_limit
    current_time w res w' :
  is_allowed self identifier endpoint custom_limit current_time w = (res, w') ->
  (forall e, e ∈ events_of w w' ->
     exists window_name, window_name ∈ ["minute"; "hour"] /\
       op_key (ev_op e) =
       "rate_limit:" +:+ identifier +:+ ":" +:+ endpoint +:+ ":" +:+ window_name) /\
  (forall k,
     (forall window_name, window_name ∈ ["minute"; "hour"] ->
        k <> bucket_key identifier endpoint window_name) ->
     w_data w' !! k = w_data w !! k).
Proof.
  unfold is_allowed. intros H.
  destruct (redis_client self) as [h|].
  - destruct (for_limits_trace _ _ _ _ _ _ _ _ _ H) as (evs & Ht & Hk & _).
    rewrite (events_of_app _ _ _ Ht). split.
    + intros e He. rewrite Forall_forall in Hk.
      destruct (Hk e He) as (lim & Hin & Hkey).
      exists (window_name_of lim). split; [|exact Hkey].
      destruct (limits_elem _ _ _ Hin) as [-> | ->]; simpl;
        rewrite !elem_of_cons; tauto.
    + intros k Hk'. eapply for_limits_frame; [exact H|].
      intros lim Hin. apply Hk'.
      destruct (limits_elem _ _ _ Hin) as [-> | ->]; simpl;
        rewrite !elem_of_cons; tauto.
  - simplify_eq. split; [|done].
    intros e He. unfold events_of in He. rewrite drop_all in He.
    by apply elem_of_nil in He.
Qed.

Lemma is_allowed_store_keys_witness :
  let w := full_world [] in
  let run := is_allowed limiter5 "1.2.3.4" "/test" None 1000 w in
  (forall e, e ∈ events_of w run.2 ->
     exists window_name, window_name ∈ ["minute"; "hour"] /\
       op_key (ev_op e) =
       "rate_limit:" +:+ "1.2.3.4" +:+ ":" +:+ "/test" +:+ ":" +:+ window_name) /\
  (forall k,
     (forall window_name, window_name ∈ ["minute"; "hour"] ->
        k <> bucket_key "1.2.3.4" "/test" window_name) ->
     w_data run.2 !! k = w_data w !! k).
Proof.
  intros w run.
  apply (is_allowed_store_keys limiter5 "1.2.3.4" "/test" None 1000 w
           run.1 run.2).
  apply surjective_pairing.
Defined.

(** ** C5: retry_after *)




(** ** C6: a denial by the minute window *)

(** C6.  When the minute iteration denies, that is, returns from line 139,
    [is_allowed] returns that [(False, info)] and the world of that moment:
    no round trip of the call has the hour key, and the store holds under
    the hour key what it held before the call. *)
Theorem minute_denial_short_circuits self h identifier endpoint custom_limit
    current_time w result w1 :
  redis_client self = Some h ->
  window_body identifier endpoint current_time None ∅
    ("minute", 60, Py.or_int custom_limit (requests_per_minute (config self)))
    w = (inr (Return result), w1) ->
  is_allowed self identifier endpoint custom_limit current_time w
    = (result, w1) /\
  result.1 = false /\
  (forall e, e ∈ events_of w w1 ->
     op_key (ev_op e) <> bucket_key identifier endpoint "hour") /\
  w_data w1 !! bucket_key identifier endpoint "hour"
    = w_data w !! bucket_key identifier endpoint "hour".
Proof.
  intros Hc H1. split_and!.
  - unfold is_allowed, limits. rewrite Hc, for_limits_cons, H1. reflexivity.
  - destruct (window_body_deny _ _ _ _ _ _ _ _ _ _ _ H1 _ eq_refl)
      as (_ & _ & ->). reflexivity.
  - destruct (window_body_trace _ _ _ _ _ _ _ _ _ _ _ H1)
      as (evs & Ht & Hk & _).
    rewrite (events_of_app _ _ _ Ht). intros e He.
    rewrite Forall_forall in Hk. rewrite (Hk e He).
    apply minute_hour_keys.
  - eapply window_body_frame; [exact H1|].
    intros E. symmetry in E. by apply minute_hour_keys in E.
Qed.

Lemma minute_denial_short_circuits_witness :
  let run := is_allowed limiter60 "1.2.3.4" "/test" None 1000 half_world in
  run.1.1 = false /\
  (forall e, e ∈ events_of half_world run.2 ->
     op_key (ev_op e) <> bucket_key "1.2.3.4" "/test" "hour") /\
  w_data run.2 !! bucket_key "1.2.3.4" "/test" "hour"
    = w_data half_world !! bucket_key "1.2.3.4" "/test" "hour".
Proof.
  intros run.
  destruct (minute_denial_short_circuits limiter60
              (FromUrl "redis://localhost:6379") "1.2.3.4" "/test" None 1000
              half_world run.1 run.2)
    as (_ & Hdeny & Hev & Hdata).
  - reflexivity.
  - vm_compute. reflexivity.
  - split_and!; assumption.
Defined.

(** ** C7: the scope of custom_limit *)

(** C7.  With a positive [custom_limit] the call evaluates the minute window
    with that limit and the hour window with [requests_per_hour] of the
    configuration, whatever [custom_limit] is: a minute limit it reports is
    the custom limit and an hour limit it reports is [requests_per_hour].
    On a store that answers, with both buckets stored and in range, at least
    one token in the minute bucket and limits between 1 and [2^53], the call
    reports both limits, leaves at most [custom_limit - 1] tokens in the
    minute bucket, and its verdict, the hour bucket it writes and the hour
    entries and [retry_after] of its info are those of the same call with
    any other custom limit, or none. *)
Theorem custom_limit_scope self h identifier endpoint current_time w c :
  let minute_key := bucket_key identifier endpoint "minute" in
  let hour_key := bucket_key identifier endpoint "hour" in
  let rpm := requests_per_minute (config self) in
  let rph := requests_per_hour (config self) in
  let custom := is_allowed self identifier endpoint (Some c) current_time w in
  redis_client self = Some h ->
  0 < c ->
  custom = for_limits identifier endpoint current_time None ∅
             [("minute", 60, c); ("hour", 3600, rph)] w /\
  (forall custom_limit,
     limits self custom_limit !! 1%nat = Some ("hour", 3600, rph)) /\
  (forall v, custom.1.2 !! "minute_limit" = Some v -> v = c) /\
  (forall v, custom.1.2 !! "hour_limit" = Some v -> v = rph) /\
  (forall other bm bh tm,
     let base := is_allowed self identifier endpoint other current_time w in
     w_faults w = [] ->
     c <= 2 ^ 53 ->
     1 <= Py.or_int other rpm <= 2 ^ 53 ->
     1 <= rph <= 2 ^ 53 ->
     stored w minute_key = Some bm ->
     stored w hour_key = Some bh ->
     in_range bm current_time ->
     in_range bh current_time ->
     tokens bm = Some tm -> (1 <= tm)%Q ->
     custom.1.2 !! "minute_limit" = Some c /\
     base.1.2 !! "minute_limit" = Some (Py.or_int other rpm) /\
     (exists b t, stored custom.2 minute_key = Some b /\
                  tokens b = Some t /\ (0 <= t <= inject_Z c - 1)%Q) /\
     custom.1.2 !! "hour_limit" = Some rph /\
     base.1.2 !! "hour_limit" = Some rph /\
     custom.1.1 = base.1.1 /\
     stored custom.2 hour_key = stored base.2 hour_key /\
     custom.1.2 !! "hour_remaining" = base.1.2 !! "hour_remaining" /\
     custom.1.2 !! "hour_reset" = base.1.2 !! "hour_reset" /\
     custom.1.2 !! "retry_after" = base.1.2 !! "retry_after").
Proof.
  intros minute_key hour_key rpm rph custom Hc Hpos.
  subst minute_key hour_key rpm rph custom.
  assert (Hor : Py.or_int (Some c) (requests_per_minute (config self)) = c).
  { unfold Py.or_int. destruct (c =? 0) eqn:E; [lia | reflexivity]. }
  split; [|split; [done|]].
  { unfold is_allowed, limits. by rewrite Hc, Hor. }
  assert (Hshape := is_allowed_result self h identifier endpoint (Some c)
                      current_time w _ _ Hc (surjective_pairing _)).
  cbv zeta in Hshape. rewrite Hor in Hshape.
  split; [|split].
  - intros v.
    destruct Hshape
      as [-> | [(_ & _ & ->) | [(_ & _ & _ & ->) | (_ & _ & ->)]]];
      simpl; info_lookup; congruence.
  - intros v.
    destruct Hshape
      as [-> | [(_ & _ & ->) | [(_ & _ & _ & ->) | (_ & _ & ->)]]];
      simpl; info_lookup; congruence.
  - clear Hshape.
    intros other bm bh tm base Hf Hc53 Ho Hrph Hm Hh Rm Rh Htm Htm1.
    subst base.
    destruct Rm as (tm' & lrm & Htm' & Hlrm & _ & Hlrm2).
    assert (tm' = tm) as -> by congruence.
    assert (Hadm : forall mx, 1 <= mx ->
      (1 <= refill (Some bm) current_time mx (inject_Z mx / inject_Z 60))%Q).
    { intros mx Hmx. apply refill_at_least; [lia | lia | | |].
      - change 1%Q with (inject_Z 1). by rewrite <- Zle_Qle.
      - unfold tokens_of. by rewrite Htm.
      - unfold last_refill_of. rewrite Hlrm. simpl. tauto. }
    destruct (is_allowed_past_the_minute self h identifier endpoint (Some c)
                current_time w bm bh Hc Hf Hm Hh)
      as (w1 & Hrun1 & Hsm1 & Hsh1);
      [rewrite Hor; apply Hadm; lia | lia |].
    destruct (is_allowed_past_the_minute self h identifier endpoint other
                current_time w bm bh Hc Hf Hm Hh)
      as (w2 & Hrun2 & Hsm2 & Hsh2);
      [apply Hadm; lia | lia |].
    rewrite Hor in Hrun1, Hsm1.
    rewrite Hrun1, Hrun2. cbn [fst snd].
    rewrite Hsm1, Hsh1, Hsh2.
    set (nth := refill (Some bh) current_time (requests_per_hour (config self))
                  (inject_Z (requests_per_hour (config self)) / inject_Z 3600))
      in *.
    split_and!.
    + destruct (Py.ge nth 1); info_lookup; done.
    + destruct (Py.ge nth 1); info_lookup; done.
    + eexists _, _. split; [reflexivity|]. split; [reflexivity|].
      pose proof (Hadm c ltac:(lia)) as H1.
      assert (H2 : (refill (Some bm) current_time c
                      (inject_Z c / inject_Z 60) <= inject_Z c)%Q)
        by apply min_le_l.
      revert H1 H2.
      generalize (refill (Some bm) current_time c (inject_Z c / inject_Z 60)).
      intros x H1 H2. split; lra.
    + destruct (Py.ge nth 1); info_lookup; done.
    + destruct (Py.ge nth 1); info_lookup; done.
    + done.
    + done.
    + destruct (Py.ge nth 1); info_lookup; done.
    + destruct (Py.ge nth 1); info_lookup; done.
    + destruct (Py.ge nth 1); info_lookup; done.
Qed.

Lemma custom_limit_scope_witness :
  let custom :=
    is_allowed limiter60 "1.2.3.4" "/test" (Some 3) 1000 (full_world []) in
  let base :=
    is_allowed limiter60 "1.2.3.4" "/test" None 1000 (full_world []) in
  custom.1.2 !! "minute_limit" = Some 3 /\
  base.1.2 !! "minute_limit" = Some 60 /\
  (exists b t, stored custom.2 (bucket_key "1.2.3.4" "/test" "minute") = Some b /\
               tokens b = Some t /\ (0 <= t <= inject_Z 3 - 1)%Q) /\
  custom.1.2 !! "hour_limit" = Some 1000 /\
  base.1.2 !! "hour_limit" = Some 1000 /\
  custom.1.1 = base.1.1 /\
  stored custom.2 (bucket_key "1.2.3.4" "/test" "hour")
    = stored base.2 (bucket_key "1.2.3.4" "/test" "hour") /\
  custom.1.2 !! "hour_remaining" = base.1.2 !! "hour_remaining" /\
  custom.1.2 !! "hour_reset" = base.1.2 !! "hour_reset" /\
  custom.1.2 !! "retry_after" = base.1.2 !! "retry_after".
Proof.
  intros custom base.
  destruct (custom_limit_scope limiter60 (FromUrl "redis://localhost:6379")
              "1.2.3.4" "/test" 1000 (full_world []) 3 eq_refl)
    as (_ & _ & _ & _ & H); [lia|].
  apply (H None (mk_bucket 5 1000 0) (mk_bucket 1000 1000 0) 5%Q).
  - reflexivity.
  - vm_compute. discriminate.
  - split; vm_compute; discriminate.
  - split; vm_compute; discriminate.
  - vm_compute. reflexivity.
  - vm_compute. reflexivity.
  - exists 5%Q, 1000%Q. split_and!; try reflexivity; vm_compute; discriminate.
  - exists 1000%Q, 1000%Q.
    split_and!; try reflexivity; vm_compute; discriminate.
  - reflexivity.
  - vm_compute. discriminate.
Defined.

(** ** C8: the invariant of a bucket *)

(** C8.  Take a [setex] that a call makes for the key of one of its windows.
    If the token count the call starts from (the stored one, or the full
    bucket it synthesizes) lies between 0 and [max_requests], and the
    [last_refill] it starts from is not after [current_time], then the
    written token count lies between 0 and [max_requests]; the written
    [requests_made] is not below the one that was stored under the key; and
    the entry is written for twice the window. *)
Theorem bucket_invariant_preserved self identifier endpoint custom_limit
    current_time w res w' window_name window_seconds max_requests
    e ttl value :
  let key := bucket_key identifier endpoint window_name in
  is_allowed self identifier endpoint custom_limit current_time w = (res, w') ->
  (window_name, window_seconds, max_requests) ∈ limits self custom_limit ->
  e ∈ events_of w w' -> ev_op e = OpSetex key ttl value ->
  (0 <= tokens_of (stored w key) max_requests <= inject_Z max_requests)%Q ->
  (last_refill_of (stored w key) current_time <= current_time)%Q ->
  (exists t, tokens value = Some t /\ (0 <= t <= inject_Z max_requests)%Q) /\
  (forall b, stored w key = Some b ->
     default 0 (requests_made b) <= default 0 (requests_made value)) /\
  ttl = window_seconds * 2.
Proof.
  intros key H Hlim He Hop Htok Hlr.
  destruct (is_allowed_write _ _ _ _ _ _ _ _ _ _ _ _ H He Hop)
    as (wn & ws & mx & bucket & Hlim' & Hws & Hk & -> & b & Hb & ->).
  apply bucket_key_inj in Hk. subst wn.
  assert (ws = window_seconds /\ mx = max_requests) as [-> ->].
  { destruct (limits_elem _ _ _ Hlim) as [E1 | E1],
             (limits_elem _ _ _ Hlim') as [E2 | E2]; simplify_eq; done. }
  pose proof (refill_bounds _ _ _ _ Hws Htok Hlr) as [Hlo Hhi].
  fold key in Hb |- *.
  set (new_tokens := refill (stored w key) current_time max_requests
                       (inject_Z max_requests / inject_Z window_seconds)) in *.
  split_and!; [| |done].
  - eexists. split; [reflexivity|].
    destruct (Py.ge new_tokens 1) eqn:Hge; [|done].
    apply ge_true in Hge. clearbody new_tokens. split; lra.
  - intros b0 Hs. rewrite Hs in Hb. simplify_eq. simpl.
    destruct (Py.ge new_tokens 1); lia.
Qed.

Lemma bucket_invariant_preserved_witness :
  let w := full_world [] in
  let run := is_allowed limiter5 "1.2.3.4" "/test" None 1000 w in
  let value := mk_bucket (5 - 1) 1000 (0 + 1) in
  (exists t, tokens value = Some t /\ (0 <= t <= inject_Z 5)%Q) /\
  (forall b, stored w (bucket_key "1.2.3.4" "/test" "minute") = Some b ->
     default 0 (requests_made b) <= default 0 (requests_made value)) /\
  120 = 60 * 2.
Proof.
  intros w run value.
  apply (bucket_invariant_preserved limiter5 "1.2.3.4" "/test" None 1000 w
           run.1 run.2 "minute" 60 5
           {| ev_op := OpSetex (bucket_key "1.2.3.4" "/test" "minute") 120 value;
              ev_raised := false |} 120 value).
  - apply surjective_pairing.
  - apply list_elem_of_lookup_2 with (i := 0%nat). reflexivity.
  - apply list_elem_of_lookup_2 with (i := 1%nat). vm_compute. reflexivity.
  - reflexivity.
  - vm_compute. split; discriminate.
  - vm_compute. discriminate.
Defined.

(** ** C9: headers of an admitted request *)

(** C9 as stated fails: a limiter without a client admits the request with
    empty info, and the response that [dispatch] returns carries none of the
    three headers. *)
Lemma fail_open_response_has_no_headers :
  let self := new_middleware default_config in
  let call_next := fun _ : Request => inr sample_response in
  existsb (Py.startswith (url_path sample_request)) (excluded_paths self)
    = false /\
  (is_allowed (rate_limiter self) (identifier_of sample_request)
     (url_path sample_request)
     (endpoint_limits self !! url_path sample_request) 1000 empty_world).1
    = (true, ∅) /\
  exists out w',
    dispatch self sample_request call_next 1000 1000 empty_world
      = (inr out, w') /\
    headers out !! "X-RateLimit-Limit" = None /\
    headers out !! "X-RateLimit-Remaining" = None /\
    headers out !! "X-RateLimit-Reset" = None.
Proof.
  split_and!; [reflexivity | reflexivity |].
  do 2 eexists. split; [vm_compute; reflexivity|].
  split_and!; reflexivity.
Qed.

(** C9, amended.  For a request outside the excluded paths that the limiter
    admits and the downstream handler answers, [dispatch] returns the
    downstream response with its status and content.  When the info is not
    empty the three [X-RateLimit-*] headers are set from the minute window
    and every other header is kept; when the info is empty (fail-open) the
    downstream response is returned as it is. *)
Theorem dispatch_allowed_headers self request call_next current_time
    header_time w rate_info w' response :
  existsb (Py.startswith (url_path request)) (excluded_paths self) = false ->
  is_allowed (rate_limiter self) (identifier_of request) (url_path request)
    (endpoint_limits self !! url_path request) current_time w
    = ((true, rate_info), w') ->
  call_next request = inr response ->
  exists out,
    dispatch self request call_next current_time header_time w
      = (inr out, w') /\
    status_code out = status_code response /\
    content out = content response /\
    (rate_info = ∅ -> out = response) /\
    (rate_info <> ∅ ->
     headers out !! "X-RateLimit-Limit" =
       Some (Py.str (default (requests_per_minute (mw_config self))
                       (rate_info !! "minute_limit"))) /\
     headers out !! "X-RateLimit-Remaining" =
       Some (Py.str (default 0 (rate_info !! "minute_remaining"))) /\
     headers out !! "X-RateLimit-Reset" =
       Some (Py.str (default (Py.int header_time + 60)
                       (rate_info !! "minute_reset"))) /\
     (forall k, k ∉ rate_limit_headers ->
        headers out !! k = headers response !! k)).
Proof.
  intros Hex Hal Hnext. unfold dispatch. rewrite Hex, Hal, Hnext. simpl.
  eexists. split; [reflexivity|].
  case_bool_decide as He.
  - split_and!; done.
  - split_and!; [done | done | done |]. intros _. simpl.
    apply limit_headers_lookup.
Qed.

Lemma dispatch_allowed_headers_witness :
  let self :=
    {| rate_limiter := limiter5; mw_config := config5;
       endpoint_limits := ∅; excluded_paths := ["/docs"] |} in
  let request :=
    {| url_path := "/test"; x_forwarded_for := Some "1.2.3.4";
       x_real_ip := None; client_host := None; state_user_id := None |} in
  exists out,
    dispatch self request (fun _ => inr sample_response) 1000 1000
      (full_world [])
      = (inr out,
         (is_allowed limiter5 "1.2.3.4" "/test" None 1000 (full_world [])).2) /\
    headers out !! "X-RateLimit-Limit" = Some "5" /\
    headers out !! "X-RateLimit-Remaining" = Some "4" /\
    headers out !! "X-RateLimit-Reset" = Some "1060".
Proof.
  intros self request.
  destruct (dispatch_allowed_headers self request (fun _ => inr sample_response)
              1000 1000 (full_world [])
              (is_allowed limiter5 "1.2.3.4" "/test" None 1000 (full_world [])).1.2
              (is_allowed limiter5 "1.2.3.4" "/test" None 1000 (full_world [])).2
              sample_response)
    as (out & Hrun & _ & _ & _ & Hh).
  - reflexivity.
  - vm_compute. reflexivity.
  - reflexivity.
  - exists out. split; [exact Hrun|].
    destruct Hh as (H1 & H2 & H3 & _).
    + vm_compute. discriminate.
    + split_and!; [rewrite H1 | rewrite H2 | rewrite H3]; vm_compute; reflexivity.
Defined.

(** ** C10: no rollback *)

(** C10.  When a round trip on the hour key raises, the minute window has
    admitted before: [is_allowed] returns [(True, {})], and the store holds
    under the minute key the bucket written by the minute window, with one
    token fewer than the refilled count and [requests_made] one higher. *)
Theorem consumed_token_survives_fail_open self identifier endpoint
    custom_limit current_time w res w' e :
  let minute_key := bucket_key identifier endpoint "minute" in
  let max_requests :=
    Py.or_int custom_limit (requests_per_minute (config self)) in
  let new_tokens :=
    refill (stored w minute_key) current_time max_requests
      (inject_Z max_requests / inject_Z 60) in
  is_allowed self identifier endpoint custom_limit current_time w = (res, w') ->
  e ∈ events_of w w' -> ev_raised e = true ->
  op_key (ev_op e) = bucket_key identifier endpoint "hour" ->
  res = (true, ∅) /\
  (1 <= new_tokens)%Q /\
  exists b,
    stored w minute_key = Some b /\
    w_data w' !! minute_key =
      Some (120, bucket_state_of b (new_tokens - 1)%Q current_time true).
Proof.
  intros minute_key max_requests new_tokens H He Hr Hkey.
  destruct (redis_client self) as [h|] eqn:Hc.
  2: { unfold is_allowed in H. rewrite Hc in H. simplify_eq.
       unfold events_of in He. rewrite drop_all in He.
       by apply elem_of_nil in He. }
  destruct (is_allowed_inv _ _ _ _ _ _ _ _ _ Hc H) as (r1 & w1 & H1 & Hres).
  destruct (window_body_trace _ _ _ _ _ _ _ _ _ _ _ H1)
    as (evs1 & Ht1 & Hk1 & _ & Hc1).
  rewrite Forall_forall in Hk1.
  assert (Hnot1 : e ∈ evs1 -> False).
  { intros Hin. specialize (Hk1 e Hin). rewrite Hkey in Hk1.
    symmetry in Hk1. by apply minute_hour_keys in Hk1. }
  destruct r1 as [x | [bucket info1 | result]].
  - destruct Hres as [_ ->]. rewrite (events_of_app _ _ _ Ht1) in He. done.
  - destruct Hres as (r2 & H2 & Hres).
    destruct (window_body_trace _ _ _ _ _ _ _ _ _ _ _ H2)
      as (evs2 & Ht2 & _ & Hl2 & _).
    rewrite (events_of_trans _ _ _ _ _ Ht1 Ht2) in He.
    apply elem_of_app in He as [He | He]; [done|].
    destruct (raises_last_elim _ _ _ Hl2 He Hr) as [-> _].
    destruct (window_body_next _ _ _ _ _ _ _ _ _ _ _ H1 _ _ eq_refl)
      as (Hge & Hb & _ & b & -> & Hdata).
    split_and!; [done | exact Hge |].
    exists b. split.
    + fold minute_key in Hb. by destruct (stored w minute_key).
    + etrans; [|exact Hdata]. eapply window_body_frame; [exact H2|].
      apply minute_hour_keys.
  - destruct Hres as [_ ->]. rewrite (events_of_app _ _ _ Ht1) in He. done.
Qed.

Lemma consumed_token_survives_fail_open_witness :
  let w := full_world [false; false; true] in
  let run := is_allowed limiter5 "1.2.3.4" "/test" None 1000 w in
  run.1 = (true, ∅) /\
  exists b,
    stored w (bucket_key "1.2.3.4" "/test" "minute") = Some b /\
    w_data run.2 !! bucket_key "1.2.3.4" "/test" "minute" =
      Some (120,
            bucket_state_of b
              (refill (stored w (bucket_key "1.2.3.4" "/test" "minute"))
                 1000 5 (inject_Z 5 / inject_Z 60) - 1)%Q 1000 true).
Proof.
  intros w run.
  destruct (consumed_token_survives_fail_open limiter5 "1.2.3.4" "/test" None
              1000 w run.1 run.2
              {| ev_op := OpGet (bucket_key "1.2.3.4" "/test" "hour");
                 ev_raised := true |})
    as (Hres & _ & Hkept).
  - apply surjective_pairing.
  - apply list_elem_of_lookup_2 with (i := 2%nat). vm_compute. reflexivity.
  - reflexivity.
  - reflexivity.
  - split; assumption.
Defined.

(** * Further properties *)

(** ** The middleware *)

(** X1: A request whose path starts with one of the excluded paths is handed
    to the downstream handler and the handler's result is returned unchanged;
    the limiter is not consulted and the store is left exactly as it was. *)
Theorem excluded_prefix_bypasses_limiter self request call_next current_time
    header_time w p suffix :
  p ∈ excluded_paths self ->
  url_path request = p +:+ suffix ->
  dispatch self request call_next current_time header_time w
    = (call_next request, w).
Proof.
  intros Hp Hpath. unfold dispatch.
  assert (existsb (Py.startswith (url_path request)) (excluded_paths self)
          = true) as ->; [|done].
  apply existsb_exists. exists p. split; [by apply list_elem_of_In|].
  unfold Py.startswith. rewrite Hpath. apply prefix_append.
Qed.

Lemma excluded_prefix_bypasses_limiter_witness :
  dispatch (connected_middleware config5) docs_request
    (fun _ => inr sample_response) 1000 1000 (full_world [])
  = (inr sample_response, full_world []).
Proof.
  apply (excluded_prefix_bypasses_limiter (connected_middleware config5)
           docs_request (fun _ => inr sample_response) 1000 1000
           (full_world []) "/docs" "/oauth2-redirect").
  - apply list_elem_of_lookup_2 with (i := 0%nat). reflexivity.
  - reflexivity.
Defined.

(** X2: A middleware as its constructor builds it limits nothing: the limiter
    it creates has no Redis client and the constructor never calls init, so
    every request gets the handler's result unchanged, without rate-limit
    headers, and the store is never touched. *)
Theorem unconnected_middleware_never_limits cfg request call_next current_time
    header_time w :
  dispatch (new_middleware cfg) request call_next current_time header_time w
    = (call_next request, w).
Proof.
  unfold dispatch.
  destruct (existsb _ _); [done|].
  simpl. destruct (call_next request) as [e | response]; done.
Qed.

(** X3: For a path that is not excluded, dispatch leaves the store exactly as
    its one call of is_allowed left it, whatever the downstream handler
    returns or raises: a token taken for a request is not given back when the
    handler fails. *)
Theorem dispatch_keeps_the_limiter_effect self request call_next current_time
    header_time w :
  existsb (Py.startswith (url_path request)) (excluded_paths self) = false ->
  (dispatch self request call_next current_time header_time w).2 =
  (is_allowed (rate_limiter self) (identifier_of request) (url_path request)
     (endpoint_limits self !! url_path request) current_time w).2.
Proof.
  intros Hex. unfold dispatch. rewrite Hex.
  destruct (is_allowed _ _ _ _ _ w) as [[allowed rate_info] w'].
  destruct allowed; [|done]. simpl.
  by destruct (call_next request).
Qed.

Lemma dispatch_keeps_the_limiter_effect_witness :
  (dispatch (connected_middleware config5) test_request
     (fun _ => inl HandlerError) 1000 1000 (full_world [])).2
  = (is_allowed limiter5 "1.2.3.4" "/test" None 1000 (full_world [])).2.
Proof.
  apply (dispatch_keeps_the_limiter_effect (connected_middleware config5)
           test_request (fun _ => inl HandlerError) 1000 1000 (full_world [])).
  reflexivity.
Defined.

(** X19: dispatch returns an error only when the downstream handler raised it:
    no failure of the store or of the limiter reaches the caller. *)
Theorem only_the_handler_can_fail self request call_next current_time
    header_time w e :
  (dispatch self request call_next current_time header_time w).1 = inl e ->
  call_next request = inl e.
Proof.
  unfold dispatch.
  destruct (existsb _ _); [done|].
  destruct (is_allowed _ _ _ _ _ w) as [[allowed rate_info] w'].
  destruct allowed; simpl; [|done].
  destruct (call_next request) as [x | response]; [done|]. discriminate.
Qed.

Lemma only_the_handler_can_fail_witness :
  let call_next := fun _ : Request => @inl Exn Response HandlerError in
  (dispatch (connected_middleware config5) test_request call_next 1000 1000
     (full_world [])).1 = inl HandlerError /\
  call_next test_request = inl HandlerError.
Proof.
  intros call_next.
  assert (H : (dispatch (connected_middleware config5) test_request call_next
                 1000 1000 (full_world [])).1 = inl HandlerError)
    by (vm_compute; reflexivity).
  split; [exact H|].
  exact (only_the_handler_can_fail (connected_middleware config5) test_request
           call_next 1000 1000 (full_world []) HandlerError H).
Defined.

(** X4: When the connected limiter denies a request for a path that is not
    excluded, dispatch answers with status 429, the JSON body carrying the
    info's retry_after, and the headers Retry-After = str(retry_after),
    X-RateLimit-Limit = the minute limit in force (the endpoint's custom
    limit, else requests_per_minute), X-RateLimit-Remaining = the info's
    minute_remaining and X-RateLimit-Reset = int(now + 60); the store is as
    is_allowed left it. *)
Theorem denied_request_gets_429 self h request call_next current_time
    header_time w info w' :
  redis_client (rate_limiter self) = Some h ->
  existsb (Py.startswith (url_path request)) (excluded_paths self) = false ->
  is_allowed (rate_limiter self) (identifier_of request) (url_path request)
    (endpoint_limits self !! url_path request) current_time w
    = ((false, info), w') ->
  exists retry_after remaining out,
    info !! "retry_after" = Some retry_after /\
    info !! "minute_remaining" = Some remaining /\
    dispatch self request call_next current_time header_time w
      = (inr out, w') /\
    status_code out = 429 /\
    content out = Json "Rate limit exceeded"
                    "Too many requests. Please try again later." retry_after /\
    headers out !! "Retry-After" = Some (Py.str retry_after) /\
    headers out !! "X-RateLimit-Limit" =
      Some (Py.str (Py.or_int (endpoint_limits self !! url_path request)
                      (requests_per_minute (config (rate_limiter self))))) /\
    headers out !! "X-RateLimit-Remaining" = Some (Py.str remaining) /\
    headers out !! "X-RateLimit-Reset" =
      Some (Py.str (Py.int (current_time + inject_Z 60))).
Proof.
  intros Hc Hex Hal.
  destruct (is_allowed_result _ _ _ _ _ _ _ _ _ Hc Hal)
    as [? | [(_ & _ & Hres) | [(_ & _ & _ & Hres) | (_ & _ & ?)]]];
    try discriminate; injection Hres as ->.
  all: rewrite ?window_info_hour, window_info_minute.
  all: unfold Info in *.
  all: do 3 eexists.
  all: split; [apply lookup_insert_eq|].
  all: split; [rewrite !lookup_insert_ne by done; apply lookup_insert_eq|].
  all: unfold dispatch; rewrite Hex, Hal; simpl.
  all: split; [reflexivity|]; simpl.
  all: unfold limit_headers, Info, HTTP_429_TOO_MANY_REQUESTS.
  all: rewrite ?window_info_hour, ?window_info_minute.
  all: repeat (rewrite lookup_insert_eq
               || (rewrite lookup_insert_ne by done)); simpl.
  all: done.
Qed.

Lemma denied_request_gets_429_witness :
  exists out,
    dispatch (connected_middleware default_config) test_request
      (fun _ => inr sample_response) 1000 1000 half_world
    = (inr out,
       (is_allowed limiter60 "1.2.3.4" "/test" None 1000 half_world).2) /\
    status_code out = 429 /\
    headers out !! "Retry-After" = Some "0" /\
    headers out !! "X-RateLimit-Limit" = Some "60" /\
    headers out !! "X-RateLimit-Remaining" = Some "0" /\
    headers out !! "X-RateLimit-Reset" = Some "1060".
Proof.
  destruct (denied_request_gets_429 (connected_middleware default_config)
              (FromUrl (redis_url default_config)) test_request (fun _ => inr sample_response) 1000 1000
              half_world
              (is_allowed limiter60 "1.2.3.4" "/test" None 1000 half_world).1.2
              (is_allowed limiter60 "1.2.3.4" "/test" None 1000 half_world).2)
    as (retry_after & remaining & out & Hr & Hm & Hrun & Hs & _ & H1 & H2 & H3
        & H4).
  - reflexivity.
  - reflexivity.
  - vm_compute. reflexivity.
  - vm_compute in Hr. vm_compute in Hm.
    injection Hr as <-. injection Hm as <-.
    exists out. split; [exact Hrun|]. split; [exact Hs|].
    split_and!; [rewrite H1 | rewrite H2 | rewrite H3 | rewrite H4];
      vm_compute; reflexivity.
Defined.

(** ** The client address and the identifier *)

(** X16: With a non-empty X-Forwarded-For header the client address is the
    text before the first comma with the surrounding white space stripped,
    whatever X-Real-IP and the peer address are; it contains no comma,
    stripping it again changes nothing, and it is the empty string exactly
    when the first hop is blank. *)
Theorem forwarded_for_gives_a_clean_first_hop request forwarded_for :
  x_forwarded_for request = Some forwarded_for ->
  forwarded_for <> EmptyString ->
  let ip := get_client_ip request in
  ip = Py.strip (Py.split_comma_0 forwarded_for) /\
  has_comma ip = false /\
  Py.strip ip = ip /\
  (ip = EmptyString <-> all_space (Py.split_comma_0 forwarded_for) = true).
Proof.
  intros Hx Hne. cbv zeta. unfold get_client_ip. rewrite Hx.
  destruct forwarded_for as [|c r]; [done|]. simpl Py.truthy. cbv iota.
  split_and!; [done | | apply strip_idem | apply strip_empty].
  unfold Py.strip. apply rstrip_keeps_no_comma, lstrip_keeps_no_comma,
    split_has_no_comma.
Qed.

Lemma forwarded_for_gives_a_clean_first_hop_witness :
  let ip := get_client_ip sample_request in
  ip = Py.strip (Py.split_comma_0 "1.2.3.4, 10.0.0.1") /\
  has_comma ip = false /\
  Py.strip ip = ip /\
  (ip = EmptyString <-> all_space (Py.split_comma_0 "1.2.3.4, 10.0.0.1") = true).
Proof.
  apply (forwarded_for_gives_a_clean_first_hop sample_request
           "1.2.3.4, 10.0.0.1").
  - reflexivity.
  - discriminate.
Defined.

(** X17: Without an authenticated user, a non-empty X-Forwarded-For value that
    has no comma and no surrounding white space is the rate-limit identifier
    as it stands, whatever X-Real-IP and the peer address are: the client
    names the bucket it is counted in. *)
Theorem forwarded_header_chooses_the_identifier request forwarded_for :
  Py.truthy (get_user_id request) = None ->
  x_forwarded_for request = Some forwarded_for ->
  forwarded_for <> EmptyString ->
  has_comma forwarded_for = false ->
  Py.strip forwarded_for = forwarded_for ->
  identifier_of request = forwarded_for.
Proof.
  intros Hu Hf Hne Hc Hs. unfold identifier_of, get_client_ip.
  rewrite Hu, Hf. simpl.
  destruct forwarded_for as [|c r]; [done|].
  cbn [Py.truthy]. by rewrite split_without_comma, Hs.
Qed.

Lemma forwarded_header_chooses_the_identifier_witness :
  identifier_of
    {| url_path := "/test"; x_forwarded_for := Some "42";
       x_real_ip := Some "1.2.3.4"; client_host := Some "10.0.0.1";
       state_user_id := None |} = "42".
Proof.
  apply forwarded_header_chooses_the_identifier.
  - reflexivity.
  - reflexivity.
  - discriminate.
  - reflexivity.
  - reflexivity.
Defined.

(** ** Keys and isolation *)

(** X5: While the store answers every operation, a call for one identifier
    does not change the result of a later call for a different identifier on
    the same endpoint: the later call answers as it would have on the store
    before the first call. *)
Theorem identifiers_are_isolated self a b endpoint limit_a limit_b time_a
    time_b w :
  a <> b ->
  w_faults w = [] ->
  (is_allowed self b endpoint limit_b time_b
     (is_allowed self a endpoint limit_a time_a w).2).1
  = (is_allowed self b endpoint limit_b time_b w).1.
Proof.
  intros Hab Hf.
  destruct (is_allowed self a endpoint limit_a time_a w) as [res w'] eqn:Ha.
  simpl. unfold is_allowed.
  destruct (redis_client self) as [h|] eqn:Hc; [|done].
  apply for_limits_ext.
  - rewrite Hf. replace w' with (is_allowed self a endpoint limit_a time_a w).2
      by (by rewrite Ha).
    unfold is_allowed. rewrite Hc. by apply for_limits_no_faults.
  - intros lim Hin. apply stored_frame.
    eapply is_allowed_frame; [exact Ha|].
    intros wn Hwn E. apply Hab. symmetry.
    eapply (bucket_key_identifier_inj _ _ endpoint); [| |exact E].
    + destruct (limits_elem _ _ _ Hin) as [-> | ->]; simpl;
        rewrite !elem_of_cons; tauto.
    + done.
Qed.

Lemma identifiers_are_isolated_witness :
  let first :=
    is_allowed limiter5 "1.2.3.4" "/test" None 1000 two_clients_world in
  stored first.2 (bucket_key "1.2.3.4" "/test" "minute")
    = Some (mk_bucket 4 1000 1) /\
  (is_allowed limiter5 "5.6.7.8" "/test" None 1000 first.2).1
    = (is_allowed limiter5 "5.6.7.8" "/test" None 1000 two_clients_world).1 /\
  (is_allowed limiter5 "5.6.7.8" "/test" None 1000 first.2).1.1 = true /\
  (is_allowed limiter5 "5.6.7.8" "/test" None 1000 first.2).1.2
    !! "minute_remaining" = Some 4.
Proof.
  intros first.
  assert (H : (is_allowed limiter5 "5.6.7.8" "/test" None 1000 first.2).1
              = (is_allowed limiter5 "5.6.7.8" "/test" None 1000
                   two_clients_world).1).
  { apply (identifiers_are_isolated limiter5 "1.2.3.4" "5.6.7.8" "/test" None
             None 1000 1000 two_clients_world).
    - discriminate.
    - reflexivity. }
  split; [vm_compute; reflexivity|]. split; [exact H|].
  rewrite H. split; vm_compute; reflexivity.
Defined.

(** X6: The bucket key joins identifier and endpoint with a colon and nothing
    else, so a call for identifier a:b on endpoint c is the same call, on the
    same buckets and with the same result and store, as a call for identifier
    a on endpoint b:c. *)
Theorem colon_shifts_between_identifier_and_endpoint self a b c custom_limit
    current_time w :
  is_allowed self (a +:+ ":" +:+ b) c custom_limit current_time w
  = is_allowed self a (b +:+ ":" +:+ c) custom_limit current_time w.
Proof.
  unfold is_allowed. destruct (redis_client self); [|done].
  generalize (limits self custom_limit) (@None Bucket) (∅ : Info) w.
  intros ls. induction ls as [|[[wn ws] mx] rest IH]; intros bucket info w0;
    [done|].
  rewrite !for_limits_cons, !window_body_unfold, bucket_key_shift. cbv zeta.
  repeat case_match; simplify_eq; try done; apply IH.
Qed.

(** ** A limit of zero *)

(** X7: When the minute limit in force is 0 (requests_per_minute is 0 and no
    non-zero custom limit is given), every call returns (True, {}), whatever
    the store holds or does. *)
Theorem zero_limit_admits_everything self identifier endpoint custom_limit
    current_time w :
  Py.or_int custom_limit (requests_per_minute (config self)) = 0 ->
  (is_allowed self identifier endpoint custom_limit current_time w).1
    = (true, ∅).
Proof.
  intros Hz.
  destruct (is_allowed self identifier endpoint custom_limit current_time w)
    as [res w'] eqn:H. simpl.
  destruct (redis_client self) as [h|] eqn:Hc;
    [|unfold is_allowed in H; rewrite Hc in H; by simplify_eq].
  destruct (is_allowed_result _ _ _ _ _ _ _ _ _ Hc H)
    as [? | [(Hne & _) | [(Hge & _) | (Hge & _)]]]; [done | done | |].
  all: exfalso; rewrite Hz in Hge; revert Hge; apply Qlt_not_le.
  all: eapply Qle_lt_trans; [apply min_le_l | reflexivity].
Qed.

Lemma zero_limit_admits_everything_witness :
  (is_allowed limiter0 "1.2.3.4" "/test" None 1000 (full_world [])).1
  = (true, ∅).
Proof.
  apply (zero_limit_admits_everything limiter0 "1.2.3.4" "/test" None 1000
           (full_world [])).
  reflexivity.
Defined.

(** ** What a call leaves in the store *)

(** X8: When a call is denied by the minute window (the info has no hour
    entry), the minute bucket was stored before the call and is written back
    with TTL 120 holding the refilled token count with nothing subtracted,
    last_refill set to the current time and requests_made not incremented. *)
Theorem minute_denial_consumes_nothing self identifier endpoint custom_limit
    current_time w info w' :
  let minute_key := bucket_key identifier endpoint "minute" in
  let max_requests :=
    Py.or_int custom_limit (requests_per_minute (config self)) in
  let new_tokens :=
    refill (stored w minute_key) current_time max_requests
      (inject_Z max_requests / inject_Z 60) in
  is_allowed self identifier endpoint custom_limit current_time w
    = ((false, info), w') ->
  info !! "hour_limit" = None ->
  exists b,
    stored w minute_key = Some b /\
    w_data w' !! minute_key =
      Some (120,
            {| tokens := Some new_tokens;
               last_refill := Some current_time;
               requests_made := Some (default 0 (requests_made b) + 0) |}).
Proof.
  intros minute_key max_requests new_tokens H Hinfo.
  destruct (redis_client self) as [h|] eqn:Hc;
    [|unfold is_allowed in H; rewrite Hc in H; discriminate].
  destruct (is_allowed_inv _ _ _ _ _ _ _ _ _ Hc H) as (r1 & w1 & H1 & Hres).
  destruct r1 as [x | [bucket info1 | result]].
  - destruct Hres as [? _]. discriminate.
  - destruct Hres as (r2 & H2 & Hres).
    destruct r2 as [x | [bucket2 info2 | result]]; try discriminate.
    subst result.
    destruct (window_body_deny _ _ _ _ _ _ _ _ _ _ _ H2 _ eq_refl)
      as (_ & _ & Heq).
    injection Heq as ->. rewrite window_info_hour in Hinfo.
    unfold Info in *.
    rewrite lookup_insert_ne, lookup_insert_ne, lookup_insert_eq in Hinfo
      by done. discriminate.
  - destruct Hres as [_ ->].
    destruct (window_body_deny_data _ _ _ _ _ _ _ _ _ _ _ H1)
      as (b & Hb & Hdata).
    exists b. split; [|exact Hdata].
    fold minute_key in Hb. by destruct (stored w minute_key).
Qed.

Lemma minute_denial_consumes_nothing_witness :
  w_data (is_allowed limiter60 "1.2.3.4" "/test" None 1000 half_world).2
    !! bucket_key "1.2.3.4" "/test" "minute"
  = Some (120, {| tokens := Some (refill (Some (mk_bucket (1 # 2) 1000 60))
                                    1000 60 (inject_Z 60 / inject_Z 60));
                  last_refill := Some 1000%Q;
                  requests_made := Some (60 + 0) |}).
Proof.
  destruct (minute_denial_consumes_nothing limiter60 "1.2.3.4" "/test" None
              1000 half_world
              (is_allowed limiter60 "1.2.3.4" "/test" None 1000 half_world).1.2
              (is_allowed limiter60 "1.2.3.4" "/test" None 1000 half_world).2)
    as (b & Hb & Hd).
  - vm_compute. reflexivity.
  - vm_compute. reflexivity.
  - rewrite Hd. vm_compute in Hb. injection Hb as <-.
    vm_compute. reflexivity.
Defined.

(** X9: When a call is denied by the hour window, the minute window had at
    least one token and admitted it: the minute bucket stays stored with one
    token fewer than the refilled count and requests_made incremented,
    although the request is denied. *)
Theorem hour_denial_keeps_the_minute_token_spent self identifier endpoint
    custom_limit current_time w info w' :
  let minute_key := bucket_key identifier endpoint "minute" in
  let max_requests :=
    Py.or_int custom_limit (requests_per_minute (config self)) in
  let new_tokens :=
    refill (stored w minute_key) current_time max_requests
      (inject_Z max_requests / inject_Z 60) in
  is_allowed self identifier endpoint custom_limit current_time w
    = ((false, info), w') ->
  is_Some (info !! "hour_limit") ->
  (1 <= new_tokens)%Q /\
  exists b,
    stored w minute_key = Some b /\
    w_data w' !! minute_key =
      Some (120, bucket_state_of b (new_tokens - 1)%Q current_time true).
Proof.
  intros minute_key max_requests new_tokens H Hinfo.
  destruct (redis_client self) as [h|] eqn:Hc;
    [|unfold is_allowed in H; rewrite Hc in H; discriminate].
  destruct (is_allowed_inv _ _ _ _ _ _ _ _ _ Hc H) as (r1 & w1 & H1 & Hres).
  destruct r1 as [x | [bucket info1 | result]].
  - destruct Hres as [? _]. discriminate.
  - destruct Hres as (r2 & H2 & Hres).
    destruct (window_body_next _ _ _ _ _ _ _ _ _ _ _ H1 _ _ eq_refl)
      as (Hge & Hb & _ & b & -> & Hdata).
    split; [exact Hge|]. exists b. split.
    + fold minute_key in Hb. by destruct (stored w minute_key).
    + etrans; [|exact Hdata]. eapply window_body_frame; [exact H2|].
      apply minute_hour_keys.
  - destruct Hres as [<- _].
    destruct (window_body_deny _ _ _ _ _ _ _ _ _ _ _ H1 _ eq_refl)
      as (_ & _ & Heq).
    injection Heq as ->. rewrite window_info_minute in Hinfo.
    unfold Info in *.
    rewrite !lookup_insert_ne, lookup_empty in Hinfo by done.
    by destruct Hinfo.
Qed.

Lemma hour_denial_keeps_the_minute_token_spent_witness :
  w_data
    (is_allowed limiter5 "1.2.3.4" "/test" None 1000 hour_spent_world).2
    !! bucket_key "1.2.3.4" "/test" "minute"
  = Some (120, mk_bucket 4 1000 1).
Proof.
  destruct (hour_denial_keeps_the_minute_token_spent limiter5 "1.2.3.4"
              "/test" None 1000 hour_spent_world
              (is_allowed limiter5 "1.2.3.4" "/test" None 1000
                 hour_spent_world).1.2
              (is_allowed limiter5 "1.2.3.4" "/test" None 1000
                 hour_spent_world).2)
    as (_ & b & Hb & Hd).
  - vm_compute. reflexivity.
  - vm_compute. eexists. reflexivity.
  - rewrite Hd. vm_compute in Hb. injection Hb as <-.
    vm_compute. reflexivity.
Defined.

(** X18: With a connected limiter and a store that answers every operation,
    both limits between 1 and 2^53, a stored minute bucket in range (tokens
    and last_refill present and not negative, tokens at most 2^53, last_refill
    not later than the current time) that holds at least one token, and no
    hour bucket stored: the call creates the hour bucket with
    requests_per_hour - 1 tokens, last_refill set to the current time, and a
    requests_made that is the minute bucket's stored counter plus 1 (the
    variable bucket still holds the minute bucket), not 1. *)
Theorem first_hour_bucket_starts_from_the_minute_counter self h identifier
    endpoint custom_limit current_time w bm :
  let mx := Py.or_int custom_limit (requests_per_minute (config self)) in
  let rph := requests_per_hour (config self) in
  redis_client self = Some h ->
  w_faults w = [] ->
  stored w (bucket_key identifier endpoint "minute") = Some bm ->
  stored w (bucket_key identifier endpoint "hour") = None ->
  1 <= mx <= 2 ^ 53 ->
  1 <= rph <= 2 ^ 53 ->
  in_range bm current_time ->
  (1 <= tokens_of (Some bm) mx)%Q ->
  stored (is_allowed self identifier endpoint custom_limit current_time w).2
    (bucket_key identifier endpoint "hour")
  = Some {| tokens := Some (inject_Z rph - 1)%Q;
            last_refill := Some current_time;
            requests_made := Some (default 0 (requests_made bm) + 1) |}.
Proof.
  intros mx rph Hc Hf Hm Hh Hmx Hrph (t & lr & _ & Hlr & _ & Hlr2) Ht.
  assert (Hge : (1 <= refill (Some bm) current_time mx
                       (inject_Z mx / inject_Z 60))%Q).
  { apply refill_at_least; [lia | lia | | exact Ht |].
    - change 1%Q with (inject_Z 1). rewrite <- Zle_Qle. lia.
    - unfold last_refill_of. rewrite Hlr. simpl. tauto. }
  destruct (window_body_admits identifier endpoint current_time None ∅
              "minute" 60 mx w bm ltac:(lia) Hf Hm Hge)
    as (w1 & Hrun1 & Hf1 & Hs1 & Hframe1).
  assert (Hh1 : stored w1 (bucket_key identifier endpoint "hour") = None).
  { rewrite Hframe1; [done|]. intros E. symmetry in E.
    by apply minute_hour_keys in E. }
  unfold is_allowed, limits. subst mx rph.
  rewrite Hc, for_limits_cons, Hrun1. cbv beta iota.
  rewrite for_limits_cons, window_body_unfold. cbv zeta.
  rewrite (no_faults_next _ Hf1), Hh1.
  rewrite (no_faults_next _ (no_faults_after_trip _ _ Hf1)).
  rewrite refill_of_nothing.
  assert (Hge2 : Py.ge (inject_Z (requests_per_hour (config self))) 1 = true).
  { apply ge_true. change 1%Q with (inject_Z 1). rewrite <- Zle_Qle. lia. }
  rewrite Hge2. simpl. unfold stored. simpl.
  by rewrite lookup_insert_eq.
Qed.

Lemma first_hour_bucket_starts_from_the_minute_counter_witness :
  stored (is_allowed limiter5 "1.2.3.4" "/test" None 1000 minute_only_world).2
    (bucket_key "1.2.3.4" "/test" "hour")
  = Some {| tokens := Some (inject_Z 1000 - 1)%Q;
            last_refill := Some 1000%Q;
            requests_made := Some (7 + 1) |}.
Proof.
  apply (first_hour_bucket_starts_from_the_minute_counter limiter5
           (FromUrl (redis_url config5)) "1.2.3.4" "/test" None 1000
           minute_only_world (mk_bucket 5 1000 7)).
  - reflexivity.
  - reflexivity.
  - vm_compute. reflexivity.
  - vm_compute. reflexivity.
  - split; vm_compute; discriminate.
  - split; vm_compute; discriminate.
  - exists 5%Q, 1000%Q. split_and!; try reflexivity; vm_compute; discriminate.
  - vm_compute. discriminate.
Defined.

(** ** What a call reports and costs *)

(** X10: An admission that carries information (not the empty dict of a fail-
    open) reports both windows: minute_limit and hour_limit are the limits in
    force, minute_remaining and hour_remaining lie between 0 and the limit
    minus 1, the resets are int(now + 60) and int(now + 3600), and there is no
    retry_after. *)
Theorem admitted_info_reports_both_windows self identifier endpoint
    custom_limit current_time w info w' :
  is_allowed self identifier endpoint custom_limit current_time w
    = ((true, info), w') ->
  info <> ∅ ->
  let max_requests :=
    Py.or_int custom_limit (requests_per_minute (config self)) in
  let per_hour := requests_per_hour (config self) in
  info !! "minute_limit" = Some max_requests /\
  info !! "hour_limit" = Some per_hour /\
  (exists r, info !! "minute_remaining" = Some r /\ 0 <= r <= max_requests - 1) /\
  (exists r, info !! "hour_remaining" = Some r /\ 0 <= r <= per_hour - 1) /\
  info !! "minute_reset" = Some (Py.int (current_time + inject_Z 60)) /\
  info !! "hour_reset" = Some (Py.int (current_time + inject_Z 3600)) /\
  info !! "retry_after" = None.
Proof.
  intros H Hne. cbv zeta.
  destruct (redis_client self) as [h|] eqn:Hc;
    [|unfold is_allowed in H; rewrite Hc in H; by simplify_eq].
  destruct (is_allowed_result _ _ _ _ _ _ _ _ _ Hc H)
    as [? | [(_ & _ & ?) | [(_ & _ & _ & ?) | (Hm & Hh & Hres)]]];
    try discriminate; [by simplify_eq|].
  injection Hres as ->.
  rewrite window_info_hour, window_info_minute. unfold Info in *.
  split_and!.
  all: repeat (rewrite lookup_insert_eq
               || (rewrite lookup_insert_ne by done)); try done.
  - eexists. split; [reflexivity|].
    apply int_after_consuming; [done | apply min_le_l].
  - eexists. split; [reflexivity|].
    apply int_after_consuming; [done | apply min_le_l].
Qed.

Lemma admitted_info_reports_both_windows_witness :
  let info :=
    (is_allowed limiter5 "1.2.3.4" "/test" None 1000 (full_world [])).1.2 in
  info !! "minute_limit" = Some 5 /\
  info !! "hour_limit" = Some 1000 /\
  (exists r, info !! "minute_remaining" = Some r /\ 0 <= r <= 5 - 1) /\
  (exists r, info !! "hour_remaining" = Some r /\ 0 <= r <= 1000 - 1) /\
  info !! "minute_reset" = Some (Py.int (1000 + inject_Z 60)) /\
  info !! "hour_reset" = Some (Py.int (1000 + inject_Z 3600)) /\
  info !! "retry_after" = None.
Proof.
  intros info.
  apply (admitted_info_reports_both_windows limiter5 "1.2.3.4" "/test" None
           1000 (full_world []) info
           (is_allowed limiter5 "1.2.3.4" "/test" None 1000 (full_world [])).2).
  - vm_compute. reflexivity.
  - intros E. apply (f_equal (fun m : Info => m !! "minute_limit")) in E.
    vm_compute in E. discriminate E.
Defined.

(** X11: One call of is_allowed makes at most four round trips to the store (a
    get and a setex per window) and removes no key from it. *)
Theorem call_makes_at_most_four_round_trips self identifier endpoint
    custom_limit current_time w :
  let run := is_allowed self identifier endpoint custom_limit current_time w in
  (length (events_of w run.2) <= 4)%nat /\
  (forall k, is_Some (w_data w !! k) -> is_Some (w_data run.2 !! k)).
Proof.
  cbv zeta. unfold is_allowed, limits, events_of.
  destruct (redis_client self); [|simpl; rewrite drop_all; simpl; split; [lia|done]].
  rewrite for_limits_cons.
  pose proof (window_body_effect identifier endpoint current_time None ∅
    ("minute", 60, Py.or_int custom_limit (requests_per_minute (config self)))
    w) as [Hl1 Hk1]. cbv zeta in Hl1, Hk1.
  destruct (window_body identifier endpoint current_time None ∅ _ w)
    as [[x | [b i | result]] w1]; cbn [fst snd] in *;
    try (rewrite length_drop; split; [lia | done]).
  rewrite for_limits_cons.
  pose proof (window_body_effect identifier endpoint current_time b i
    ("hour", 3600, requests_per_hour (config self)) w1) as [Hl2 Hk2].
  cbv zeta in Hl2, Hk2.
  destruct (window_body identifier endpoint current_time b i _ w1)
    as [[x | [b2 i2 | result]] w2]; cbn [fst snd for_limits] in *;
    rewrite length_drop; (split; [lia | intros k Hk; by apply Hk2, Hk1]).
Qed.

(** ** Bursts *)

(** X14: n calls at one instant are all admitted when both buckets are stored
    with at least n tokens, n is within both limits, no last_refill lies in
    the future and the store answers every operation. *)
Theorem burst_within_the_tokens_is_admitted self h identifier endpoint
    custom_limit current_time (n : nat) : forall w bm bh,
  let mx := Py.or_int custom_limit (requests_per_minute (config self)) in
  let rph := requests_per_hour (config self) in
  redis_client self = Some h ->
  w_faults w = [] ->
  stored w (bucket_key identifier endpoint "minute") = Some bm ->
  stored w (bucket_key identifier endpoint "hour") = Some bh ->
  Z.of_nat n <= mx -> Z.of_nat n <= rph ->
  (inject_Z (Z.of_nat n) <= tokens_of (Some bm) mx)%Q ->
  (inject_Z (Z.of_nat n) <= tokens_of (Some bh) rph)%Q ->
  (last_refill_of (Some bm) current_time <= current_time)%Q ->
  (last_refill_of (Some bh) current_time <= current_time)%Q ->
  let results :=
    (calls n self identifier endpoint custom_limit current_time w).1 in
  length results = n /\ Forall (fun r => r.1 = true) results.
Proof.
  induction n as [|n IH]; intros w bm bh mx rph Hc Hf Hm Hh Hnm Hnh Htm Hth
    Hlm Hlh; [by split|].
  assert (Hq : forall k : Z, Z.of_nat (S n) <= k ->
            (inject_Z (Z.of_nat n) + 1 <= inject_Z k)%Q).
  { intros k Hk. change 1%Q with (inject_Z 1).
    rewrite <- inject_Z_plus, <- Zle_Qle. lia. }
  assert (HS : (inject_Z (Z.of_nat (S n)) == inject_Z (Z.of_nat n) + 1)%Q).
  { change 1%Q with (inject_Z 1). rewrite <- inject_Z_plus.
    by replace (Z.of_nat (S n)) with (Z.of_nat n + 1) by lia. }
  assert (H0 : (0 <= inject_Z (Z.of_nat n))%Q).
  { change 0%Q with (inject_Z 0). rewrite <- Zle_Qle. lia. }
  pose proof (refill_at_least (Some bm) current_time mx 60
                (inject_Z (Z.of_nat n) + 1) ltac:(lia) ltac:(lia)
                (Hq _ Hnm) ltac:(lra) Hlm) as Hrm.
  pose proof (refill_at_least (Some bh) current_time rph 3600
                (inject_Z (Z.of_nat n) + 1) ltac:(lia) ltac:(lia)
                (Hq _ Hnh) ltac:(lra) Hlh) as Hrh.
  destruct (is_allowed_both_admit self h identifier endpoint custom_limit
              current_time w bm Hc Hf Hm bh Hh ltac:(fold mx; lra)
              ltac:(fold rph; lra))
    as (info & w' & Hrun & Hf' & Hm' & Hh').
  fold mx rph in Hm', Hh'.
  cbv zeta. simpl. rewrite Hrun.
  destruct (IH w' _ _ Hc Hf' Hm' Hh' ltac:(lia) ltac:(lia))
    as [Hlen Hall]; fold mx rph.
  - simpl. lra.
  - simpl. lra.
  - simpl. lra.
  - simpl. lra.
  - destruct (calls n self identifier endpoint custom_limit current_time w')
      as [results w'']. simpl in *. split; [by rewrite Hlen|].
    by constructor.
Qed.

Lemma burst_within_the_tokens_is_admitted_witness :
  let results :=
    (calls 5 limiter5 "1.2.3.4" "/test" None 1000 (full_world [])).1 in
  length results = 5%nat /\ Forall (fun r => r.1 = true) results.
Proof.
  apply (burst_within_the_tokens_is_admitted limiter5
           (FromUrl (redis_url config5)) "1.2.3.4" "/test" None 1000 5
           (full_world []) (mk_bucket 5 1000 0) (mk_bucket 1000 1000 0)).
  - reflexivity.
  - reflexivity.
  - vm_compute. reflexivity.
  - vm_compute. reflexivity.
  - vm_compute. discriminate.
  - vm_compute. discriminate.
  - vm_compute. discriminate.
  - vm_compute. discriminate.
  - vm_compute. discriminate.
  - vm_compute. discriminate.
Defined.

(** X15: With a connected limiter and a store that answers every operation:
    when both buckets are stored, the minute bucket holds exactly n tokens and
    was refilled at the current time, the minute limit is positive and at most
    2^53, n is within both limits, and the hour bucket holds at least n tokens
    with a last_refill that is not in the future, then n + 1 calls at that
    instant give n admissions and then a denial whose retry_after is 60 //
    limit. *)
Theorem bucket_serves_its_tokens_then_denies self h identifier endpoint
    custom_limit current_time (n : nat) : forall w bm bh,
  let mx := Py.or_int custom_limit (requests_per_minute (config self)) in
  let rph := requests_per_hour (config self) in
  redis_client self = Some h ->
  w_faults w = [] ->
  stored w (bucket_key identifier endpoint "minute") = Some bm ->
  stored w (bucket_key identifier endpoint "hour") = Some bh ->
  0 < mx -> mx <= 2 ^ 53 -> Z.of_nat n <= mx -> Z.of_nat n <= rph ->
  (tokens_of (Some bm) mx == inject_Z (Z.of_nat n))%Q ->
  (last_refill_of (Some bm) current_time == current_time)%Q ->
  (inject_Z (Z.of_nat n) <= tokens_of (Some bh) rph)%Q ->
  (last_refill_of (Some bh) current_time <= current_time)%Q ->
  exists admitted last,
    (calls (S n) self identifier endpoint custom_limit current_time w).1
      = admitted ++ [last] /\
    length admitted = n /\
    Forall (fun r => r.1 = true) admitted /\
    last.1 = false /\
    last.2 !! "retry_after" = Some (60 / mx).
Proof.
  induction n as [|n IH]; intros w bm bh mx rph Hc Hf Hm Hh Hmx H53 Hnm Hnh
    Htm Hlm Hth Hlh.
  - pose proof (refill_exact (Some bm) current_time mx
                  (inject_Z mx / inject_Z 60) _ Hlm Htm) as Hex.
    assert (Hle : (inject_Z (Z.of_nat 0) <= inject_Z mx)%Q)
      by (rewrite <- Zle_Qle; lia).
    specialize (Hex Hle). change (inject_Z (Z.of_nat 0)) with 0%Q in Hex.
    destruct (is_allowed_minute_denies self h identifier endpoint custom_limit
                current_time w bm Hc Hf Hm ltac:(fold mx; lia)
                ltac:(fold mx; lra))
      as (w' & Hrun & _).
    fold mx in Hrun. eexists [], _. simpl. rewrite Hrun. simpl.
    split_and!; [reflexivity | done | constructor | done |]. simpl.
    unfold Info. rewrite lookup_insert_eq. f_equal.
    by apply int_of_full_wait.
  - assert (HS : (inject_Z (Z.of_nat (S n)) == inject_Z (Z.of_nat n) + 1)%Q).
    { change 1%Q with (inject_Z 1). rewrite <- inject_Z_plus.
      by replace (Z.of_nat (S n)) with (Z.of_nat n + 1) by lia. }
    assert (H0 : (0 <= inject_Z (Z.of_nat n))%Q).
    { change 0%Q with (inject_Z 0). rewrite <- Zle_Qle. lia. }
    assert (Hq : forall k : Z, Z.of_nat (S n) <= k ->
              (inject_Z (Z.of_nat (S n)) <= inject_Z k)%Q).
    { intros k Hk. by rewrite <- Zle_Qle. }
    pose proof (refill_exact (Some bm) current_time mx
                  (inject_Z mx / inject_Z 60) _ Hlm Htm (Hq _ Hnm)) as Hex.
    pose proof (refill_at_least (Some bh) current_time rph 3600
                  (inject_Z (Z.of_nat (S n))) ltac:(lia) ltac:(lia)
                  (Hq _ Hnh) Hth Hlh) as Hrh.
    destruct (is_allowed_both_admit self h identifier endpoint custom_limit
                current_time w bm Hc Hf Hm bh Hh ltac:(fold mx; lra)
                ltac:(fold rph; lra))
      as (info & w' & Hrun & Hf' & Hm' & Hh').
    fold mx rph in Hm', Hh'.
    destruct (IH w' _ _ Hc Hf' Hm' Hh' Hmx H53 ltac:(lia) ltac:(lia))
      as (admitted & last & Hcalls & Hlen & Hall & Hlast & Hretry);
      fold mx rph.
    + simpl. lra.
    + simpl. lra.
    + simpl. lra.
    + simpl. lra.
    + exists ((true, info) :: admitted), last.
      change (calls (S (S n)) self identifier endpoint custom_limit
                current_time w)
        with (let '(result, w1) :=
                is_allowed self identifier endpoint custom_limit current_time w in
              let '(results, w2) :=
                calls (S n) self identifier endpoint custom_limit
                  current_time w1 in
              (result :: results, w2)).
      rewrite Hrun.
      destruct (calls (S n) self identifier endpoint custom_limit
                  current_time w') as [results w''].
      simpl in *. subst results.
      split_and!; [done | by rewrite Hlen | by constructor | done | done].
Qed.

Lemma bucket_serves_its_tokens_then_denies_witness :
  exists admitted last,
    (calls 6 limiter5 "1.2.3.4" "/test" None 1000 (full_world [])).1
      = admitted ++ [last] /\
    length admitted = 5%nat /\
    Forall (fun r => r.1 = true) admitted /\
    last.1 = false /\
    last.2 !! "retry_after" = Some (60 / 5).
Proof.
  apply (bucket_serves_its_tokens_then_denies limiter5
           (FromUrl (redis_url config5)) "1.2.3.4" "/test" None 1000 5
           (full_world []) (mk_bucket 5 1000 0) (mk_bucket 1000 1000 0)).
  - reflexivity.
  - reflexivity.
  - vm_compute. reflexivity.
  - vm_compute. reflexivity.
  - reflexivity.
  - vm_compute. discriminate.
  - vm_compute. discriminate.
  - vm_compute. discriminate.
  - vm_compute. reflexivity.
  - vm_compute. reflexivity.
  - vm_compute. discriminate.
  - vm_compute. discriminate.
Defined.
